(** * Team snapshot memory: store, differ and reporter

    Shallow embedding of [tools/br_team_memory.py]: the four tools
    [SaveTeamSnapshot], [LoadTeamSnapshot], [CompareTeamSnapshots] and
    [ReportTeamChanges], each with its [forward] method.

    Python values are modelled by the JSON fragment the tools exchange:
    [None], booleans, integers, strings, lists and string-keyed dictionaries.
    Numbers are integers ([Z]); floating point values are outside the model.
    A Python [dict] is an association list in insertion order, because the
    code iterates dictionaries and the order of the keys is observable. *)

From Stdlib Require Import ZArith Ascii.
From stdpp Require Import base option list strings pretty gmap.

Local Open Scope Z_scope.
Set Warnings "-register-all".

(** ** Python values *)

(** The hashable values: they can be dictionary keys (player names). *)
Inductive scalar : Type :=
  | SNone
  | SBool (b : bool)
  | SInt (z : Z)
  | SStr (s : string).

Inductive value : Type :=
  | Atom (a : scalar)
  | VList (l : list value)
  | VDict (d : list (string * value)).

Coercion Atom : scalar >-> value.

Definition PyNone : value := Atom SNone.

(** Exceptions the tools can raise. *)
Inductive exn : Type :=
  | KeyError (key : scalar)
  | TypeError
  | AttributeError
  | JSONDecodeError.

Inductive result (A : Type) : Type :=
  | Ok (a : A)
  | Raise (e : exn).
Arguments Ok {A} a.
Arguments Raise {A} e.

Definition rbind {A B} (m : result A) (k : A → result B) : result B :=
  match m with
  | Ok a => k a
  | Raise e => Raise e
  end.

(** The error monad, with stdpp's [x ← m; k] notation. *)
Global Instance result_bind : MBind result := λ A B k m, rbind m k.
Global Instance result_ret : MRet result := λ A a, Ok a.

(** A [for] loop whose body may raise: the first exception ends the loop. *)
Fixpoint foldM {A B} (body : B → A → result B) (l : list A) (b : B) : result B :=
  match l with
  | [] => Ok b
  | x :: rest => rbind (body b x) (foldM body rest)
  end.

(** ** Equality of Python values ([==])

    [bool] is a subclass of [int]: [True == 1] and [False == 0]. *)
Definition scalar_eqb (a b : scalar) : bool :=
  match a, b with
  | SNone, SNone => true
  | SBool x, SBool y => Bool.eqb x y
  | SBool x, SInt y => Z.b2z x =? y
  | SInt x, SBool y => x =? Z.b2z y
  | SInt x, SInt y => x =? y
  | SStr x, SStr y => String.eqb x y
  | _, _ => false
  end.

(** ** Dictionaries

    Keys are compared with the key type's [==]; a new key goes to the end, an
    existing key keeps its place (and the key object first inserted). *)
Class PyKey (K : Type) := key_eqb : K → K → bool.
Global Instance string_key : PyKey string := String.eqb.
Global Instance scalar_key : PyKey scalar := scalar_eqb.

Definition pydict (K V : Type) : Type := list (K * V).

Section pydict_ops.
Context {K V : Type} `{PyKey K}.

(** [d.get(k)] as an option; also [k in d] and [d[k]]. *)
Fixpoint pyget (k : K) (d : pydict K V) : option V :=
  match d with
  | [] => None
  | (k', v) :: rest => if key_eqb k k' then Some v else pyget k rest
  end.

Definition pymem (k : K) (d : pydict K V) : bool :=
  match pyget k d with Some _ => true | None => false end.

(** [d[k] = v] *)
Fixpoint pyset (k : K) (v : V) (d : pydict K V) : pydict K V :=
  match d with
  | [] => [(k, v)]
  | (k', v') :: rest =>
      if key_eqb k k' then (k', v) :: rest else (k', v') :: pyset k v rest
  end.

(** iteration order of [for k in d] *)
Definition pykeys (d : pydict K V) : list K := map fst d.
End pydict_ops.

Definition record : Type := pydict string value.
Definition collection : Type := list record.

(** [d.get(k)] with the default [None]. *)
Definition get_or_none (k : string) (d : pydict string value) : value :=
  default PyNone (pyget k d).

(** [==] on values. Two dictionaries are equal when they have as many keys and
    every key of the first maps to an equal value in the second. *)
Fixpoint py_eqb (a b : value) : bool :=
  match a, b with
  | Atom x, Atom y => scalar_eqb x y
  | VList l1, VList l2 =>
      (fix go (l1 l2 : list value) : bool :=
         match l1, l2 with
         | [], [] => true
         | x :: xs, y :: ys => py_eqb x y && go xs ys
         | _, _ => false
         end) l1 l2
  | VDict d1, VDict d2 =>
      (length d1 =? length d2)%nat &&
      (fix go (d : list (string * value)) : bool :=
         match d with
         | [] => true
         | (k, v) :: rest =>
             match pyget k d2 with
             | Some v' => py_eqb v v'
             | None => false
             end && go rest
         end) d1
  | _, _ => false
  end.

(** [a != b] *)
Definition py_neb (a b : value) : bool := negb (py_eqb a b).

(** ** CompareTeamSnapshots *)

(** The change set: [{"new_players": [], "removed_players": [],
    "attribute_changes": {}}]; an entry of a player's diff is
    [{"old": ..., "new": ...}]. *)
Record change : Type := Change { old : value; new : value }.

Definition player_diff : Type := pydict string change.

Record changes : Type := Changes {
  new_players : list scalar;
  removed_players : list scalar;
  attribute_changes : pydict scalar player_diff
}.

(** [{p["name"]: p for p in snapshot}]: [p["name"]] raises [KeyError] when the
    field is missing, and a list or a dictionary cannot be a key. *)
Definition players_view : Type := pydict scalar record.

Fixpoint index_by_name (snapshot : collection) (acc : players_view)
  : result players_view :=
  match snapshot with
  | [] => Ok acc
  | p :: rest =>
      match pyget "name" p with
      | None => Raise (KeyError (SStr "name"))
      | Some (Atom name) => index_by_name rest (pyset name p acc)
      | Some _ => Raise TypeError
      end
  end.

Definition players_by_name (snapshot : collection) : result players_view :=
  index_by_name snapshot [].

(** [for name in src: if name not in other: out.append(name)] *)
Definition names_missing_from (src other : players_view) : list scalar :=
  fold_left (λ out name, if pymem name other then out else out ++ [name])
            (pykeys src) [].

Definition TOP_LEVEL_ATTRS : list string :=
  ["age"; "salary"; "form"; "aggression"; "discipline";
   "leadership"; "experience"; "weight"; "height"; "csr"; "energy"].

(** Body of the loop over the top-level attributes. *)
Definition check_attr (old_p new_p : record) (diff : player_diff) (attr : string)
  : player_diff :=
  if py_neb (get_or_none attr old_p) (get_or_none attr new_p)
  then pyset attr (Change (get_or_none attr old_p) (get_or_none attr new_p)) diff
  else diff.

Definition check_top_level (old_p new_p : record) (diff : player_diff)
  : player_diff :=
  fold_left (check_attr old_p new_p) TOP_LEVEL_ATTRS diff.

(** Body of the loop over the skills: [old_skills] is [old_p["skills"]], a
    dictionary; [new_p["skills"]] is looked up at every turn and must be a
    dictionary too for [.get] to exist. *)
Definition check_skill (new_p : record) (old_skills : pydict string value)
    (diff : player_diff) (skill : string) : result player_diff :=
  match pyget "skills" new_p with
  | None => Raise (KeyError (SStr "skills"))
  | Some (VDict new_skills) =>
      Ok (if py_neb (get_or_none skill old_skills) (get_or_none skill new_skills)
          then pyset skill (Change (get_or_none skill old_skills)
                                   (get_or_none skill new_skills)) diff
          else diff)
  | Some _ => Raise AttributeError
  end.

(** [for skill in old_p.get("skills", {})]: a dictionary yields its keys; an
    empty list or string yields nothing; a non-empty one yields elements on
    which the body fails at once, since [old_p["skills"]] has no [.get];
    [None] and numbers are not iterable. *)
Definition check_skills (old_p new_p : record) (diff : player_diff)
  : result player_diff :=
  match pyget "skills" old_p with
  | None => Ok diff
  | Some (VDict old_skills) =>
      foldM (check_skill new_p old_skills) (pykeys old_skills) diff
  | Some (VList []) => Ok diff
  | Some (VList (_ :: _)) => Raise AttributeError
  | Some (Atom (SStr s)) =>
      if String.eqb s "" then Ok diff else Raise AttributeError
  | Some (Atom _) => Raise TypeError
  end.

Definition diff_players (old_p new_p : record) : result player_diff :=
  check_skills old_p new_p (check_top_level old_p new_p []).

(** Body of the loop [for name in new_players_by_name]. *)
Definition compare_player (old_view new_view : players_view)
    (acc : pydict scalar player_diff) (name : scalar)
  : result (pydict scalar player_diff) :=
  match pyget name old_view with
  | None => Ok acc
  | Some old_p =>
      match pyget name new_view with
      | None => Raise (KeyError name)
      | Some new_p =>
          diff ← diff_players old_p new_p;
          Ok (match diff with
              | [] => acc
              | _ :: _ => pyset name diff acc
              end)
      end
  end.

(** Lines 78 to 116 of [CompareTeamSnapshots.forward]: the comparison once the
    previous snapshot has been loaded. *)
Definition compare_snapshots (old_snapshot new_snapshot : collection)
  : result changes :=
  old_players_by_name ← players_by_name old_snapshot;
  new_players_by_name ← players_by_name new_snapshot;
  let added := names_missing_from new_players_by_name old_players_by_name in
  let removed := names_missing_from old_players_by_name new_players_by_name in
  attrs ← foldM (compare_player old_players_by_name new_players_by_name)
                (pykeys new_players_by_name) [];
  Ok (Changes added removed attrs).

(** ** The snapshot store *)

(** Python's [json] module: [json.dump(obj, f, ensure_ascii=False, indent=2)]
    gives the text written to the file, [json.load] parses a text or raises
    [JSONDecodeError]. The module is not part of the repository; the tools are
    modelled over any implementation of it. *)
Class JsonLib : Type := {
  json_dump : value → string;
  json_load : string → option value
}.

(** The files on disk: path to content. *)
Abbreviation filesystem := (gmap string string).

Definition SNAPSHOT_DIR : string := "./memory/team_snapshots".

(** [os.path.join(SNAPSHOT_DIR, f"team_{team_id}.json")] *)
Definition snapshot_filename (team_id : Z) : string :=
  SNAPSHOT_DIR +:+ "/" +:+ "team_" +:+ pretty team_id +:+ ".json".

(** A list of dictionaries as a Python value, and back. *)
Definition value_of_collection (c : collection) : value := VList (map VDict c).

Fixpoint records_of_values (l : list value) : option collection :=
  match l with
  | [] => Some []
  | VDict d :: rest => cons d <$> records_of_values rest
  | _ :: _ => None
  end.

Definition collection_of_value (v : value) : option collection :=
  match v with
  | VList l => records_of_values l
  | _ => None
  end.

(** What the operating system does to one call of [SaveTeamSnapshot.forward]:
    nothing wrong; [open(filename, "w")] fails (the file is not touched); or
    the file is opened, which truncates it, and the write fails after
    [written] characters. *)
Inductive io_outcome : Type :=
  | IoSuccess
  | IoOpenFails
  | IoWriteFails (written : nat).

(** The first [n] characters of a text. *)
Definition text_prefix (n : nat) (text : string) : string :=
  String.substring 0 n text.

(** [SaveTeamSnapshot.forward]: every exception is caught, printed and turned
    into [False]. *)
Definition SaveTeamSnapshot_forward `{JsonLib} (io : io_outcome)
    (fs : filesystem) (team_id : Z) (players_data : collection)
  : bool * filesystem :=
  let filename := snapshot_filename team_id in
  let text := json_dump (value_of_collection players_data) in
  match io with
  | IoSuccess => (true, <[filename := text]> fs)
  | IoOpenFails => (false, fs)
  | IoWriteFails written => (false, <[filename := text_prefix written text]> fs)
  end.

(** [LoadTeamSnapshot.forward]: [None] when the file does not exist, else the
    parsed content. The return type is [Optional[list[dict]]]: a file holding
    [null] gives [None]; a file holding any other JSON value that is not a list
    of objects is outside that type, and the model raises [TypeError] for it. *)
Definition LoadTeamSnapshot_forward `{JsonLib} (fs : filesystem) (team_id : Z)
  : result (option collection) :=
  match fs !! snapshot_filename team_id with
  | None => Ok None
  | Some text =>
      match json_load text with
      | None => Raise JSONDecodeError
      | Some (Atom SNone) => Ok None
      | Some v =>
          match collection_of_value v with
          | Some c => Ok (Some c)
          | None => Raise TypeError
          end
      end
  end.

(** [CompareTeamSnapshots.forward] *)
Definition CompareTeamSnapshots_forward `{JsonLib} (fs : filesystem)
    (team_id : Z) (new_snapshot : collection) : result (option changes) :=
  old_snapshot ← LoadTeamSnapshot_forward fs team_id;
  match old_snapshot with
  | None => Ok None
  | Some old_snapshot =>
      changes ← compare_snapshots old_snapshot new_snapshot;
      Ok (Some changes)
  end.

(** ** Well-formed values

    The values a Python program can build: a dictionary has no key twice. *)
Fixpoint distinct_fields (ks : list string) : bool :=
  match ks with
  | [] => true
  | k :: rest => negb (existsb (String.eqb k) rest) && distinct_fields rest
  end.

Fixpoint well_formed (v : value) : bool :=
  match v with
  | Atom _ => true
  | VList l => forallb well_formed l
  | VDict d =>
      distinct_fields (List.map fst d)
      && forallb (λ kv, let '(_, x) := kv in well_formed x) d
  end.


(** The contract of the [json] module on these values: what [json.dump]
    writes, [json.load] reads back. *)
Definition json_round_trips `{JsonLib} : Prop :=
  ∀ v, well_formed v = true → json_load (json_dump v) = Some v.

(** ** ReportTeamChanges *)

(** [repr] of a [str]: the choice of quotes and the escapes depend on Unicode
    tables, so it is a parameter. *)
Class PyRepr : Type := repr_str : string → string.

Definition LF : string := String "010"%char "".

(** The arrow of line 155, as the bytes of the source file. *)
Definition ARROW : string :=
  String "195" (String "162" (String "226" (String "128" (String "160"
  (String "226" (String "128" (String "153" ""))))))).

Section report.
Context `{PyRepr}.

Definition repr_scalar (a : scalar) : string :=
  match a with
  | SNone => "None"
  | SBool true => "True"
  | SBool false => "False"
  | SInt z => pretty z
  | SStr s => repr_str s
  end.

Fixpoint py_repr (v : value) : string :=
  match v with
  | Atom a => repr_scalar a
  | VList l => "[" +:+ String.concat ", " (List.map py_repr l) +:+ "]"
  | VDict d =>
      "{" +:+ String.concat ", "
                (List.map (λ kv, let '(k, x) := kv in
                                 repr_str k +:+ ": " +:+ py_repr x) d)
          +:+ "}"
  end.

(** [str(v)], what an f-string prints. *)
Definition py_str (v : value) : string :=
  match v with
  | Atom (SStr s) => s
  | _ => py_repr v
  end.

(** [for name in names: lines.append(f" - {name}")] *)
Definition append_names (names : list scalar) (lines : list string)
  : list string :=
  fold_left (λ lines name, lines ++ [" - " +:+ py_str (Atom name)]) names lines.

(** [for attr, vals in attrs.items(): lines.append(...)] *)
Definition append_attrs (attrs : player_diff) (lines : list string)
  : list string :=
  fold_left (λ lines av,
               lines ++ ["     " +:+ av.1 +:+ ": " +:+ py_str (old av.2)
                         +:+ " " +:+ ARROW +:+ " " +:+ py_str (new av.2)])
            attrs lines.

(** [for name, attrs in attribute_changes.items(): ...] *)
Definition append_players (attribute_changes : pydict scalar player_diff)
    (lines : list string) : list string :=
  fold_left (λ lines na,
               append_attrs na.2
                 (lines ++ [" - " +:+ py_str (Atom na.1) +:+ ":"]))
            attribute_changes lines.

(** [ReportTeamChanges.forward]. A change set always has its three keys
    (lines 78 to 82), so the defaults of [changes.get] are never used. *)
Definition ReportTeamChanges_forward (changes : option changes) : string :=
  match changes with
  | None => "No previous snapshot exists. Unable to report changes."
  | Some changes =>
      let lines := [] in
      let lines :=
        lines ++ [match new_players changes with
                  | _ :: _ => "New players added:"
                  | [] => "No new players added."
                  end] in
      let lines := append_names (new_players changes) lines in
      let lines :=
        lines ++ [match removed_players changes with
                  | _ :: _ => "Players removed:"
                  | [] => "No players removed."
                  end] in
      let lines := append_names (removed_players changes) lines in
      let lines :=
        match attribute_changes changes with
        | _ :: _ =>
            append_players (attribute_changes changes)
              (lines ++ ["Changes in player attributes:"])
        | [] => lines ++ ["No changes in player attributes detected."]
        end in
      String.concat LF lines
  end.
End report.

(** ** A reference implementation of the [json] module

    The text [json.dump] produces with [ensure_ascii=False, indent=2], and a
    parser for JSON texts with integer numbers. Used to run the tools on
    concrete snapshots. *)
Module PyJson.

Definition QUOTE : ascii := "034".
Definition BACKSLASH : ascii := "092".

Definition hex_digit (n : N) : ascii :=
  if (n <? 10)%N then ascii_of_N (48 + n) else ascii_of_N (87 + n).

(** [ESCAPE_DCT]: the quote, the backslash and the control characters. *)
Definition escape_char (c : ascii) : string :=
  if Ascii.eqb c QUOTE then String BACKSLASH (String QUOTE "")
  else if Ascii.eqb c BACKSLASH then String BACKSLASH (String BACKSLASH "")
  else if Ascii.eqb c "008" then String BACKSLASH "b"
  else if Ascii.eqb c "012" then String BACKSLASH "f"
  else if Ascii.eqb c "010" then String BACKSLASH "n"
  else if Ascii.eqb c "013" then String BACKSLASH "r"
  else if Ascii.eqb c "009" then String BACKSLASH "t"
  else if (N_of_ascii c <? 32)%N
       then String BACKSLASH
              (String "u" (String "0" (String "0"
                (String (hex_digit (N_of_ascii c / 16))
                   (String (hex_digit (N_of_ascii c mod 16)) "")))))
  else String c "".

Fixpoint escape (s : string) : string :=
  match s with
  | "" => ""
  | String c rest => escape_char c +:+ escape rest
  end.

Definition encode_string (s : string) : string :=
  String QUOTE (escape s +:+ String QUOTE "").

Definition encode_scalar (a : scalar) : string :=
  match a with
  | SNone => "null"
  | SBool true => "true"
  | SBool false => "false"
  | SInt z => pretty z
  | SStr s => encode_string s
  end.

Fixpoint spaces (n : nat) : string :=
  match n with
  | O => ""
  | S n => String " " (spaces n)
  end.

(** A line break followed by the indentation of a nesting level. *)
Definition newline_indent (level : nat) : string :=
  LF +:+ spaces (2 * level).

Fixpoint encode (level : nat) (v : value) : string :=
  match v with
  | Atom a => encode_scalar a
  | VList [] => "[]"
  | VList l =>
      "[" +:+ newline_indent (S level)
          +:+ String.concat ("," +:+ newline_indent (S level))
                (List.map (encode (S level)) l)
          +:+ newline_indent level +:+ "]"
  | VDict [] => "{}"
  | VDict d =>
      "{" +:+ newline_indent (S level)
          +:+ String.concat ("," +:+ newline_indent (S level))
                (List.map (λ kv, let '(k, x) := kv in
                                 encode_string k +:+ ": " +:+ encode (S level) x) d)
          +:+ newline_indent level +:+ "}"
  end.

Definition dumps (v : value) : string := encode 0 v.

(** *** Parsing *)

Definition is_whitespace (c : ascii) : bool :=
  Ascii.eqb c " " || Ascii.eqb c "009" || Ascii.eqb c "010" || Ascii.eqb c "013".

Fixpoint skip_ws (s : string) : string :=
  match s with
  | String c rest => if is_whitespace c then skip_ws rest else s
  | "" => ""
  end.

Definition digit_value (c : ascii) : option Z :=
  let n := Z.of_N (N_of_ascii c) in
  if (48 <=? n) && (n <=? 57) then Some (n - 48) else None.

Definition hex_value (c : ascii) : option N :=
  let n := N_of_ascii c in
  if (48 <=? n)%N && (n <=? 57)%N then Some (n - 48)%N
  else if (97 <=? n)%N && (n <=? 102)%N then Some (n - 87)%N
  else if (65 <=? n)%N && (n <=? 70)%N then Some (n - 55)%N
  else None.

(** The UTF-8 bytes of a code point of the basic plane; the surrogates have
    no encoding. *)
Definition utf8 (n : N) : option string :=
  if (n <? 128)%N then Some (String (ascii_of_N n) "")
  else if (n <? 2048)%N
       then Some (String (ascii_of_N (192 + n / 64))
                    (String (ascii_of_N (128 + n mod 64)) ""))
  else if (55296 <=? n)%N && (n <=? 57343)%N then None
  else Some (String (ascii_of_N (224 + n / 4096))
               (String (ascii_of_N (128 + (n / 64) mod 64))
                  (String (ascii_of_N (128 + n mod 64)) ""))).

(** The characters of a string literal, after the opening quote. *)
Fixpoint parse_chars (s : string) : option (string * string) :=
  match s with
  | "" => None
  | String c rest =>
      if Ascii.eqb c QUOTE then Some ("", rest)
      else if Ascii.eqb c BACKSLASH then
        match rest with
        | String "u" (String h1 (String h2 (String h3 (String h4 rest')))) =>
            a ← hex_value h1; b ← hex_value h2;
            c ← hex_value h3; d ← hex_value h4;
            bytes ← utf8 (((a * 16 + b) * 16 + c) * 16 + d)%N;
            '(body, rest'') ← parse_chars rest';
            Some (bytes +:+ body, rest'')
        | String e rest' =>
            c' ← (if Ascii.eqb e QUOTE then Some QUOTE
                  else if Ascii.eqb e BACKSLASH then Some BACKSLASH
                  else if Ascii.eqb e "/" then Some "/"%char
                  else if Ascii.eqb e "b" then Some "008"%char
                  else if Ascii.eqb e "f" then Some "012"%char
                  else if Ascii.eqb e "n" then Some "010"%char
                  else if Ascii.eqb e "r" then Some "013"%char
                  else if Ascii.eqb e "t" then Some "009"%char
                  else None);
            '(body, rest'') ← parse_chars rest';
            Some (String c' body, rest'')
        | "" => None
        end
      else if (N_of_ascii c <? 32)%N then None
      else '(body, rest') ← parse_chars rest; Some (String c body, rest')
  end.

(** The digits at the head of a text, read in base ten after [acc]. *)
Fixpoint parse_digits (acc : Z) (s : string) : Z * string :=
  match s with
  | String c rest =>
      match digit_value c with
      | Some d => parse_digits (acc * 10 + d) rest
      | None => (acc, s)
      end
  | "" => (acc, "")
  end.

(** A natural number without a leading zero, not followed by a fraction or
    an exponent (those are floating point numbers). *)
Definition parse_nat (s : string) : option (Z * string) :=
  match s with
  | String c rest =>
      d ← digit_value c;
      let '(n, rest') :=
        if d =? 0 then (0, rest) else parse_digits d rest in
      match rest' with
      | String c' _ =>
          if Ascii.eqb c' "." || Ascii.eqb c' "e" || Ascii.eqb c' "E"
          then None else Some (n, rest')
      | "" => Some (n, rest')
      end
  | "" => None
  end.

(** The text after a given beginning. *)
Fixpoint strip_prefix (p s : string) : option string :=
  match p, s with
  | "", _ => Some s
  | String a p', String b s' =>
      if Ascii.eqb a b then strip_prefix p' s' else None
  | String _ _, "" => None
  end.

Fixpoint parse_value (fuel : nat) (s : string) : option (value * string) :=
  match fuel with
  | O => None
  | S fuel =>
      match s with
      | "" => None
      | String c rest =>
          match digit_value c with
          | Some _ => '(n, rest') ← parse_nat s; Some (Atom (SInt n), rest')
          | None =>
              if Ascii.eqb c "-" then
                '(n, rest') ← parse_nat rest; Some (Atom (SInt (- n)), rest')
              else if Ascii.eqb c QUOTE then
                '(str, rest') ← parse_chars rest; Some (Atom (SStr str), rest')
              else if Ascii.eqb c "[" then
                match skip_ws rest with
                | "" => None
                | String c' rest' =>
                    if Ascii.eqb c' "]" then Some (VList [], rest')
                    else '(l, rest'') ← parse_items fuel (String c' rest');
                         Some (VList l, rest'')
                end
              else if Ascii.eqb c "{" then
                match skip_ws rest with
                | "" => None
                | String c' rest' =>
                    if Ascii.eqb c' "}" then Some (VDict [], rest')
                    else '(d, rest'') ← parse_members fuel [] (String c' rest');
                         Some (VDict d, rest'')
                end
              else if Ascii.eqb c "n" then
                rest' ← strip_prefix "ull" rest; Some (Atom SNone, rest')
              else if Ascii.eqb c "t" then
                rest' ← strip_prefix "rue" rest; Some (Atom (SBool true), rest')
              else if Ascii.eqb c "f" then
                rest' ← strip_prefix "alse" rest; Some (Atom (SBool false), rest')
              else None
          end
      end
  end
with parse_items (fuel : nat) (s : string) : option (list value * string) :=
  match fuel with
  | O => None
  | S fuel =>
      '(v, rest) ← parse_value fuel s;
      match skip_ws rest with
      | String "," rest' =>
          '(l, rest'') ← parse_items fuel (skip_ws rest'); Some (v :: l, rest'')
      | String "]" rest' => Some ([v], rest')
      | _ => None
      end
  end
with parse_members (fuel : nat) (acc : pydict string value) (s : string)
  : option (pydict string value * string) :=
  match fuel with
  | O => None
  | S fuel =>
      match s with
      | String c rest =>
          if Ascii.eqb c QUOTE then
            '(k, rest) ← parse_chars rest;
            match skip_ws rest with
            | String ":" rest =>
                '(v, rest) ← parse_value fuel (skip_ws rest);
                match skip_ws rest with
                | String "," rest' =>
                    parse_members fuel (pyset k v acc) (skip_ws rest')
                | String "}" rest' => Some (pyset k v acc, rest')
                | _ => None
                end
            | _ => None
            end
          else None
      | "" => None
      end
  end.

Definition loads (text : string) : option value :=
  '(v, rest) ← parse_value (S (String.length text)) (skip_ws text);
  match skip_ws rest with
  | "" => Some v
  | _ => None
  end.

Definition lib : JsonLib := {| json_dump := dumps; json_load := loads |}.

(** *** Notions for the round trip *)

(** What follows an encoded value: nothing, a comma or a line break. *)
Definition terminated (rest : string) : bool :=
  match rest with
  | "" => true
  | String c _ => Ascii.eqb c "," || Ascii.eqb c "010"
  end.

(** The first character of a token: not white space and not a closing
    bracket. *)
Definition opens_token (s : string) : bool :=
  match s with
  | "" => false
  | String c _ =>
      negb (is_whitespace c) && negb (Ascii.eqb c "]") && negb (Ascii.eqb c "}")
  end.

(** The fuel the parser needs to read a value back. *)
Fixpoint need (v : value) : nat :=
  match v with
  | Atom _ => 1
  | VList l => S (fold_right (λ x n, S (Nat.max (need x) n)) 0%nat l)
  | VDict d =>
      S (fold_right (λ kv n, let '(_, x) := kv in S (Nat.max (need x) n)) 0%nat d)
  end.

Definition need_items (l : list value) : nat :=
  fold_right (λ x n, S (Nat.max (need x) n)) 0%nat l.

Definition need_members (d : list (string * value)) : nat :=
  fold_right (λ kv n, let '(_, x) := kv in S (Nat.max (need x) n)) 0%nat d.

Definition encode_member (level : nat) (kv : string * value) : string :=
  let '(k, x) := kv in encode_string k +:+ ": " +:+ encode level x.

Definition separator (level : nat) : string := "," +:+ newline_indent level.

(** A value is read back from its text when what follows the text ends it. *)
Definition reads_back (v : value) : Prop :=
  ∀ level fuel rest,
    (need v ≤ fuel)%nat → well_formed v = true → terminated rest = true →
    parse_value fuel (encode level v +:+ rest) = Some (v, rest).

Definition store_member (acc : pydict string value) (kv : string * value)
  : pydict string value :=
  pyset kv.1 kv.2 acc.

End PyJson.

(** [repr] of a string of printable ASCII characters without quotes or
    backslashes: the string between single quotes. *)
Definition repr_plain : PyRepr := λ s, "'" +:+ s +:+ "'".

(** ** Specification-level notions

    The definitions below follow the words of the specification; the theorems
    compare them with the code above. *)

(** The identity of each record, in the order of the collection. *)
Definition identity (p : record) : option scalar :=
  match pyget "name" p with
  | Some (Atom name) => Some name
  | _ => None
  end.

Definition identities (c : collection) : list scalar := omap identity c.

(** The distinct identities in the order first encountered: each one is kept
    where it first occurs and later occurrences are dropped. *)
Fixpoint first_seen (names : list scalar) : list scalar :=
  match names with
  | [] => []
  | n :: rest => n :: filter (λ m, scalar_eqb m n = false) (first_seen rest)
  end.

(** Is an identity present in a collection? *)
Definition present (n : scalar) (c : collection) : bool :=
  existsb (scalar_eqb n) (identities c).

(** The identities of [c] that are not present in [other], in the order first
    encountered while iterating [c]. *)
Definition only_in (c other : collection) : list scalar :=
  filter (λ n, present n other = false) (first_seen (identities c)).

(** The last record of a collection that carries a given identity. *)
Definition has_identity (n : scalar) (p : record) : bool :=
  match identity p with
  | Some m => scalar_eqb n m
  | None => false
  end.

Definition last_with_identity (n : scalar) (c : collection) : option record :=
  List.find (has_identity n) (rev c).

(** The nested sub-mapping of a record, empty when the record has none. *)
Definition skills_of (p : record) : pydict string value :=
  match pyget "skills" p with
  | Some (VDict skills) => skills
  | _ => []
  end.

(** The entry [{old, new}] of a field whose values differ, a missing field
    counting as [None]. *)
Definition field_change (old_fields new_fields : pydict string value)
    (field : string) : option change :=
  if py_neb (get_or_none field old_fields) (get_or_none field new_fields)
  then Some (Change (get_or_none field old_fields) (get_or_none field new_fields))
  else None.

Definition is_top_level_attr (field : string) : bool :=
  existsb (String.eqb field) TOP_LEVEL_ATTRS.

Definition is_old_skill (old_p : record) (field : string) : bool :=
  existsb (String.eqb field) (pykeys (skills_of old_p)).

(** What the comparison of two matched records reports under a field name:
    the change of the skill of that name when the old record has one and it
    differs, else the change of the top-level attribute of that name when it
    is one of the fixed set and differs, else nothing. *)
Definition reported_change (old_p new_p : record) (field : string)
  : option change :=
  match (if is_old_skill old_p field
         then field_change (skills_of old_p) (skills_of new_p) field
         else None) with
  | Some c => Some c
  | None =>
      if is_top_level_attr field then field_change old_p new_p field else None
  end.

(** Both loops record, for each field of a list in turn, the entry of that
    field when there is one. *)
Definition record_entries (entry : string → option change)
    (fields : list string) (diff : player_diff) : player_diff :=
  fold_left (λ diff f, match entry f with
                       | Some c => pyset f c diff
                       | None => diff
                       end) fields diff.

(** No two keys of a list are equal. *)
Fixpoint distinct_keys (ks : list scalar) : Prop :=
  match ks with
  | [] => True
  | k :: rest => existsb (scalar_eqb k) rest = false ∧ distinct_keys rest
  end.

(** The non-empty diff of the two records a name is matched to, if any. *)
Definition matched_diff (old_view new_view : players_view) (name : scalar)
  : option player_diff :=
  match pyget name old_view, pyget name new_view with
  | Some old_p, Some new_p =>
      match diff_players old_p new_p with
      | Ok (entry :: diff) => Some (entry :: diff)
      | _ => None
      end
  | _, _ => None
  end.

(** In a view where the later record wins, an identity is mapped to the record
    that carries it and is followed by no other record carrying it. *)
Definition later_record_wins (c : collection) (view : players_view) : Prop :=
  ∀ before p after n,
    c = before ++ p :: after →
    has_identity n p = true →
    forallb (λ q, negb (has_identity n q)) after = true →
    pyget n view = Some p.

(** ** Sample snapshots *)

Definition player (name : string) (fields : pydict string value) : record :=
  ("name", Atom (SStr name)) :: fields.

Definition roster_before : collection :=
  [player "A" [("age", Atom (SInt 20))]].

Definition roster_after : collection :=
  [player "A" [("age", Atom (SInt 21))]; player "B" [("age", Atom (SInt 19))]].

(** The store once [roster_before] has been saved for team 7. *)
Definition disk_before : filesystem :=
  {[ snapshot_filename 7 := PyJson.dumps (value_of_collection roster_before) ]}.

(** What the comparison of [roster_after] with [roster_before] reports. *)
Definition changes_after : changes :=
  Changes [SStr "B"] []
          [(SStr "A", [("age", Change (Atom (SInt 20)) (Atom (SInt 21)))])].

(** A roster in which two records carry the identity ["A"]. *)
Definition roster_twice : collection :=
  [player "A" [("age", Atom (SInt 20))]; player "B" [("age", Atom (SInt 19))];
   player "A" [("age", Atom (SInt 30))]].

(** What the comparison of [roster_after] with [roster_twice] reports. *)
Definition changes_twice : changes :=
  Changes [] []
          [(SStr "A", [("age", Change (Atom (SInt 30)) (Atom (SInt 21)))])].

(** Two states of a player with skills: one skill changes, one disappears
    and one is new. *)
Definition skilled_before : record :=
  player "A" [("age", Atom (SInt 20));
              ("skills", VDict [("tackle", Atom (SInt 5)); ("pass", Atom (SInt 7))])].

Definition skilled_after : record :=
  player "A" [("age", Atom (SInt 20));
              ("skills", VDict [("tackle", Atom (SInt 6)); ("kick", Atom (SInt 3))])].

(** The same player, fetched without the skills sub-mapping. *)
Definition unskilled_after : record := player "A" [("age", Atom (SInt 20))].

(** The store once [skilled_before] has been saved for team 7. *)
Definition disk_skilled : filesystem :=
  {[ snapshot_filename 7 := PyJson.dumps (value_of_collection [skilled_before]) ]}.

(** A record without the identity field. *)
Definition nameless : record := [("age", Atom (SInt 31))].

(** The name of a record, when it has one, can be a dictionary key. *)
Definition name_hashable (p : record) : Prop :=
  ∀ v, pyget "name" p = Some v → ∃ a, v = Atom a.

(** A roster with nested sub-mappings. *)
Definition roster_skilled : collection :=
  [skilled_before;
   player "B" [("age", Atom (SInt 19)); ("injured", Atom (SBool false));
               ("agent", PyNone); ("skills", VDict [])]].

(** The report, section by section. *)
Section report_sections.
Context `{PyRepr}.

Definition name_line (name : scalar) : string :=
  " - " +:+ py_str (Atom name).

(** The names under their heading, or the sentence that there are none. *)
Definition names_section (heading nothing : string) (names : list scalar)
  : list string :=
  match names with
  | [] => [nothing]
  | _ :: _ => heading :: map name_line names
  end.

(** A changed field with its old and new values. *)
Definition field_line (entry : string * change) : string :=
  "     " +:+ entry.1 +:+ ": " +:+ py_str (old entry.2)
          +:+ " " +:+ ARROW +:+ " " +:+ py_str (new entry.2).

(** An identity followed by its changed fields. *)
Definition player_section (entry : scalar * player_diff) : list string :=
  (" - " +:+ py_str (Atom entry.1) +:+ ":") :: map field_line entry.2.

Definition attributes_section (attribute_changes : pydict scalar player_diff)
  : list string :=
  match attribute_changes with
  | [] => ["No changes in player attributes detected."]
  | _ :: _ =>
      "Changes in player attributes:"
      :: List.concat (map player_section attribute_changes)
  end.
End report_sections.

(** Records on which the comparison cannot fail: a hashable name; for an old
    record, a skills sub-mapping that is a dictionary when there is one; for
    a new record, a skills sub-mapping that is there and is a dictionary. *)
Definition has_scalar_name (p : record) : Prop :=
  ∃ name, pyget "name" p = Some (Atom name).

Definition skills_optional (p : record) : Prop :=
  pyget "skills" p = None ∨ ∃ skills, pyget "skills" p = Some (VDict skills).

Definition skills_given (p : record) : Prop :=
  ∃ skills, pyget "skills" p = Some (VDict skills).

(** * Properties *)

(** ** Keys *)

Lemma scalar_eqb_refl (a : scalar) : scalar_eqb a a = true.
Proof.
  destruct a as [| b | z | s]; simpl; auto.
  - by destruct b.
  - apply Z.eqb_refl.
  - apply String.eqb_refl.
Qed.

Lemma scalar_eqb_sym (a b : scalar) : scalar_eqb a b = scalar_eqb b a.
Proof.
  destruct a as [| x | x | x], b as [| y | y | y]; simpl; auto.
  - by destruct x, y.
  - apply Z.eqb_sym.
  - apply Z.eqb_sym.
  - apply Z.eqb_sym.
  - apply String.eqb_sym.
Qed.

(** The integer a scalar is compared as, when it is a number. *)
Definition as_number (a : scalar) : scalar :=
  match a with
  | SBool b => SInt (Z.b2z b)
  | _ => a
  end.

Lemma scalar_eqb_number (a b : scalar) :
  scalar_eqb a b = true ↔ as_number a = as_number b.
Proof.
  destruct a as [| x | x | x], b as [| y | y | y]; simpl;
    rewrite ?Z.eqb_eq, ?String.eqb_eq; try (split; congruence).
  destruct x, y; simpl; split; congruence.
Qed.

Lemma scalar_eqb_trans (a b c : scalar) :
  scalar_eqb a b = true → scalar_eqb b c = true → scalar_eqb a c = true.
Proof. rewrite !scalar_eqb_number. congruence. Qed.

(** The laws of [==] a dictionary relies on. *)
Class PyKeyLaws (K : Type) `{PyKey K} : Prop := {
  key_eqb_refl : ∀ a : K, key_eqb a a = true;
  key_eqb_sym : ∀ a b : K, key_eqb a b = key_eqb b a;
  key_eqb_trans : ∀ a b c : K,
    key_eqb a b = true → key_eqb b c = true → key_eqb a c = true
}.

Global Instance scalar_key_laws : PyKeyLaws scalar.
Proof.
  split; [apply scalar_eqb_refl | apply scalar_eqb_sym | apply scalar_eqb_trans].
Qed.

Global Instance string_key_laws : PyKeyLaws string.
Proof.
  split; unfold key_eqb, string_key.
  - apply String.eqb_refl.
  - apply String.eqb_sym.
  - intros a b c. rewrite !String.eqb_eq. congruence.
Qed.

Section pydict_facts.
Context {K V : Type} `{PyKeyLaws K}.
Implicit Types (k n : K) (v : V) (d : pydict K V).

(** Equal keys cannot be told apart by a comparison. *)
Lemma key_eqb_congr n k k' :
  key_eqb k k' = true → key_eqb n k = key_eqb n k'.
Proof.
  intros Hk. destruct (key_eqb n k') eqn:Hn.
  - apply (key_eqb_trans n k' k); [done |]. by rewrite key_eqb_sym.
  - destruct (key_eqb n k) eqn:Hn'; [| done].
    rewrite <- Hn. symmetry. by apply (key_eqb_trans n k k').
Qed.

Lemma pyget_congr n k d : key_eqb n k = true → pyget n d = pyget k d.
Proof.
  intros Hk. induction d as [| [k' v'] d IH]; simpl; [done |].
  rewrite (key_eqb_sym n k'), (key_eqb_sym k k').
  rewrite <- (key_eqb_congr k' n k Hk).
  by rewrite IH.
Qed.

Lemma pyget_pyset n k v d :
  pyget n (pyset k v d) = if key_eqb n k then Some v else pyget n d.
Proof.
  induction d as [| [k' v'] d IH]; simpl; [done |].
  destruct (key_eqb k k') eqn:Hk; simpl.
  - rewrite (key_eqb_congr n k k' Hk). by destruct (key_eqb n k').
  - rewrite IH. destruct (key_eqb n k) eqn:Hn; [| done].
    destruct (key_eqb n k') eqn:Hn'; [| done].
    assert (key_eqb k k' = true) as Hkk; [| congruence].
    apply (key_eqb_trans k n k'); [| done]. by rewrite key_eqb_sym.
Qed.

Lemma pymem_pyset n k v d :
  pymem n (pyset k v d) = key_eqb n k || pymem n d.
Proof. unfold pymem. rewrite pyget_pyset. by destruct (key_eqb n k). Qed.

Lemma pykeys_pyset k v d :
  pykeys (pyset k v d) = if pymem k d then pykeys d else pykeys d ++ [k].
Proof.
  unfold pymem, pykeys. induction d as [| [k' v'] d IH]; simpl; [done |].
  destruct (key_eqb k k'); simpl; [done |].
  rewrite IH. by destruct (pyget k d).
Qed.

Lemma pymem_keys n d : pymem n d = existsb (key_eqb n) (pykeys d).
Proof.
  unfold pymem, pykeys. induction d as [| [k' v'] d IH]; simpl; [done |].
  by destruct (key_eqb n k').
Qed.

Lemma pyget_head k v d : pyget k ((k, v) :: d) = Some v.
Proof. simpl. by rewrite key_eqb_refl. Qed.

(** A dictionary is empty exactly when every lookup fails. *)
Lemma pydict_empty d : d = [] ↔ ∀ k, pyget k d = None.
Proof.
  split; [by intros -> |].
  destruct d as [| [k v] d]; [done |].
  intros Hall. specialize (Hall k). by rewrite pyget_head in Hall.
Qed.
End pydict_facts.

(** ** The identity-indexed view *)

Lemma append_unless_filter {A} (skip : A → bool) (l out : list A) :
  fold_left (λ out x, if skip x then out else out ++ [x]) l out
  = out ++ filter (λ x, skip x = false) l.
Proof.
  revert out. induction l as [| x l IH]; intros out; simpl.
  - by rewrite app_nil_r.
  - rewrite IH. destruct (skip x) eqn:Hskip.
    + by rewrite filter_cons_False by congruence.
    + rewrite filter_cons_True by done. by rewrite <- app_assoc.
Qed.

Lemma names_missing_from_filter (src other : players_view) :
  names_missing_from src other
  = filter (λ n, pymem n other = false) (pykeys src).
Proof. unfold names_missing_from. by rewrite append_unless_filter. Qed.

Lemma find_app {A} (f : A → bool) (l1 l2 : list A) :
  List.find f (l1 ++ l2)
  = match List.find f l1 with Some x => Some x | None => List.find f l2 end.
Proof.
  induction l1 as [| x l1 IH]; simpl; [done |]. by destruct (f x).
Qed.

Lemma last_with_identity_cons n p c :
  last_with_identity n (p :: c)
  = match last_with_identity n c with
    | Some q => Some q
    | None => if has_identity n p then Some p else None
    end.
Proof. unfold last_with_identity. simpl. by rewrite find_app. Qed.

(** One turn of the dictionary comprehension. *)
Lemma index_by_name_cons p rest acc view :
  index_by_name (p :: rest) acc = Ok view →
  ∃ name, pyget "name" p = Some (Atom name) ∧ identity p = Some name
          ∧ index_by_name rest (pyset name p acc) = Ok view.
Proof.
  simpl. unfold identity.
  destruct (pyget "name" p) as [[name | |] |]; try done. eauto.
Qed.

(** Every record of an indexed collection has an identity. *)
Lemma index_by_name_identities c acc view :
  index_by_name c acc = Ok view → map identity c = map Some (identities c).
Proof.
  revert acc. induction c as [| p c IH]; intros acc Hview; [done |].
  apply index_by_name_cons in Hview as (name & _ & Hid & Hrest).
  unfold identities. simpl. rewrite Hid. simpl. f_equal. by eapply IH.
Qed.

(** Later records replace earlier ones with the same identity. *)
Lemma index_by_name_lookup c acc view n :
  index_by_name c acc = Ok view →
  pyget n view = match last_with_identity n c with
                 | Some p => Some p
                 | None => pyget n acc
                 end.
Proof.
  revert acc. induction c as [| p c IH]; intros acc Hview.
  - simpl in Hview. by inversion Hview.
  - apply index_by_name_cons in Hview as (name & _ & Hid & Hrest).
    rewrite (IH _ Hrest), last_with_identity_cons, pyget_pyset.
    unfold has_identity. rewrite Hid.
    change (key_eqb n name) with (scalar_eqb n name).
    by destruct (last_with_identity n c), (scalar_eqb n name).
Qed.

(** The keys keep the order in which the identities were first seen. *)
Lemma index_by_name_keys c acc view :
  index_by_name c acc = Ok view →
  pykeys view
  = pykeys acc ++ filter (λ n, pymem n acc = false) (first_seen (identities c)).
Proof.
  revert acc. induction c as [| p c IH]; intros acc Hview.
  - simpl in Hview. inversion Hview. by rewrite app_nil_r.
  - apply index_by_name_cons in Hview as (name & _ & Hid & Hrest).
    rewrite (IH _ Hrest). unfold identities. simpl. rewrite Hid. simpl.
    fold (identities c). rewrite pykeys_pyset.
    assert (filter (λ n, pymem n (pyset name p acc) = false)
                   (first_seen (identities c))
            = filter (λ n, pymem n acc = false ∧ scalar_eqb n name = false)
                     (first_seen (identities c))) as Hfilter.
    { apply list_filter_iff. intros n. rewrite pymem_pyset.
      change (key_eqb n name) with (scalar_eqb n name).
      destruct (scalar_eqb n name), (pymem n acc); simpl; intuition congruence. }
    destruct (pymem name acc) eqn:Hmem.
    + rewrite filter_cons_False by congruence.
      by rewrite list_filter_filter, Hfilter.
    + rewrite filter_cons_True by done.
      by rewrite list_filter_filter, Hfilter, <- app_assoc.
Qed.

Lemma existsb_first_seen n names :
  existsb (scalar_eqb n) (first_seen names) = existsb (scalar_eqb n) names.
Proof.
  induction names as [| m names IH]; simpl; [done |].
  destruct (scalar_eqb n m) eqn:Hnm; simpl; [done |].
  rewrite <- IH. clear IH.
  induction (first_seen names) as [| x l IHl]; simpl; [done |].
  rewrite filter_cons. destruct (decide (scalar_eqb x m = false)) as [Hx | Hx]; simpl.
  - by rewrite IHl.
  - rewrite IHl. apply not_false_is_true in Hx.
    destruct (scalar_eqb n x) eqn:Hnx; [| done].
    rewrite (scalar_eqb_trans n x m) in Hnm; done.
Qed.

(** [first_seen] keeps the identities in the order of the list. *)
Lemma first_seen_sublist names : sublist (first_seen names) names.
Proof.
  induction names as [| n names IH]; simpl; [constructor |].
  apply sublist_skip. etrans; [apply sublist_filter | apply IH].
Qed.

Lemma players_by_name_keys c view :
  players_by_name c = Ok view → pykeys view = first_seen (identities c).
Proof.
  intros Hview. rewrite (index_by_name_keys _ _ _ Hview). simpl.
  induction (first_seen (identities c)) as [| x l IH]; [done |].
  by rewrite filter_cons_True, IH.
Qed.

Lemma players_by_name_mem c view n :
  players_by_name c = Ok view → pymem n view = present n c.
Proof.
  intros Hview. unfold present.
  by rewrite pymem_keys, (players_by_name_keys _ _ Hview), existsb_first_seen.
Qed.

Lemma players_by_name_lookup c view n :
  players_by_name c = Ok view → pyget n view = last_with_identity n c.
Proof.
  intros Hview. rewrite (index_by_name_lookup _ _ _ n Hview).
  by destruct (last_with_identity n c).
Qed.

(** ** The comparison of two matched records *)

Lemma record_entries_lookup entry fields diff k :
  pyget k (record_entries entry fields diff)
  = match (if existsb (String.eqb k) fields then entry k else None) with
    | Some c => Some c
    | None => pyget k diff
    end.
Proof.
  unfold record_entries. revert diff.
  induction fields as [| f fields IH]; intros diff; simpl; [done |].
  rewrite IH. destruct (String.eqb k f) eqn:Hkf; simpl.
  - apply String.eqb_eq in Hkf as ->.
    destruct (existsb (String.eqb f) fields), (entry f) as [c |];
      rewrite ?pyget_pyset, ?key_eqb_refl; done.
  - assert (pyget k match entry f with
                     | Some c => pyset f c diff
                     | None => diff
                     end = pyget k diff) as ->; [| done].
    destruct (entry f) as [c |]; [| done].
    rewrite pyget_pyset. change (key_eqb k f) with (String.eqb k f).
    by rewrite Hkf.
Qed.

Lemma check_top_level_entries old_p new_p diff :
  check_top_level old_p new_p diff
  = record_entries (field_change old_p new_p) TOP_LEVEL_ATTRS diff.
Proof.
  unfold check_top_level, record_entries. revert diff.
  induction TOP_LEVEL_ATTRS as [| a attrs IH]; intros diff; simpl; [done |].
  rewrite <- IH. f_equal. unfold check_attr, field_change.
  by destruct (py_neb _ _).
Qed.

(** When the new record has a skills dictionary the loop over the old skills
    cannot fail. *)
Lemma check_skills_loop new_p old_skills new_skills fields diff :
  pyget "skills" new_p = Some (VDict new_skills) →
  foldM (check_skill new_p old_skills) fields diff
  = Ok (record_entries (field_change old_skills new_skills) fields diff).
Proof.
  intros Hnew. unfold record_entries. revert diff.
  induction fields as [| f fields IH]; intros diff; simpl; [done |].
  unfold check_skill at 1. rewrite Hnew. simpl. rewrite IH.
  unfold field_change. by destruct (py_neb _ _).
Qed.

(** When it runs at least once and does not fail, the new record has one. *)
Lemma check_skills_loop_inv new_p old_skills f fields diff diff' :
  foldM (check_skill new_p old_skills) (f :: fields) diff = Ok diff' →
  ∃ new_skills, pyget "skills" new_p = Some (VDict new_skills).
Proof.
  simpl. unfold check_skill at 1.
  destruct (pyget "skills" new_p) as [[a | l | new_skills] |]; try done. eauto.
Qed.

Lemma check_skills_lookup old_p new_p diff diff' k :
  check_skills old_p new_p diff = Ok diff' →
  pyget k diff'
  = match (if is_old_skill old_p k
           then field_change (skills_of old_p) (skills_of new_p) k
           else None) with
    | Some c => Some c
    | None => pyget k diff
    end.
Proof.
  unfold check_skills, is_old_skill, skills_of.
  destruct (pyget "skills" old_p) as [[a | l | old_skills] |] eqn:Hold.
  - destruct a as [| b | z | s]; try done.
    destruct (String.eqb s ""); [| done]. by intros [= ->].
  - destruct l; [| done]. by intros [= ->].
  - destruct (pykeys old_skills) as [| f fields] eqn:Hkeys.
    + by intros [= ->].
    + intros Hloop.
      destruct (check_skills_loop_inv _ _ _ _ _ _ Hloop) as [new_skills Hnew].
      rewrite (check_skills_loop _ _ _ _ _ Hnew), <- Hkeys in Hloop.
      injection Hloop as <-. by rewrite Hnew, record_entries_lookup, Hkeys.
  - by intros [= ->].
Qed.

(** The diff of two matched records, field by field. *)
Lemma diff_players_lookup old_p new_p diff k :
  diff_players old_p new_p = Ok diff →
  pyget k diff = reported_change old_p new_p k.
Proof.
  unfold diff_players, reported_change. intros Hdiff.
  rewrite (check_skills_lookup _ _ _ _ k Hdiff), check_top_level_entries.
  rewrite record_entries_lookup. unfold is_top_level_attr. simpl pyget.
  by destruct (existsb (String.eqb k) TOP_LEVEL_ATTRS),
             (field_change old_p new_p k).
Qed.

(** ** The loop over the matched names *)

Lemma existsb_filter_other n m (l : list scalar) :
  scalar_eqb n m = true →
  existsb (scalar_eqb n) (filter (λ x, scalar_eqb x m = false) l) = false.
Proof.
  intros Hnm. induction l as [| x l IH]; [done |].
  rewrite filter_cons. destruct (decide (scalar_eqb x m = false)) as [Hx | Hx];
    simpl; [| done].
  rewrite IH, orb_false_r. destruct (scalar_eqb n x) eqn:Hnx; [| done].
  assert (scalar_eqb x m = true) as Hxm; [| congruence].
  apply (scalar_eqb_trans x n m); [| done]. by rewrite scalar_eqb_sym.
Qed.

Lemma existsb_filter_false {A} (f : A → bool) (P : A → Prop)
    `{∀ x, Decision (P x)} (l : list A) :
  existsb f l = false → existsb f (filter P l) = false.
Proof.
  induction l as [| x l IH]; [done |]. simpl. rewrite filter_cons.
  intros [Hx Hl]%orb_false_elim. destruct (decide (P x)); simpl; auto.
  by rewrite Hx, IH.
Qed.

Lemma distinct_keys_filter (P : scalar → Prop) `{∀ x, Decision (P x)} ks :
  distinct_keys ks → distinct_keys (filter P ks).
Proof.
  induction ks as [| k ks IH]; [done |]. simpl. intros [Hk Hks].
  rewrite filter_cons. destruct (decide (P k)); simpl; auto.
  split; [| auto]. by apply existsb_filter_false.
Qed.

Lemma first_seen_distinct names : distinct_keys (first_seen names).
Proof.
  induction names as [| n names IH]; simpl; [done |]. split.
  - apply existsb_filter_other, scalar_eqb_refl.
  - by apply distinct_keys_filter.
Qed.

Lemma find_distinct_head n k ks :
  scalar_eqb n k = true → existsb (scalar_eqb k) ks = false →
  List.find (scalar_eqb n) ks = None.
Proof.
  intros Hnk. induction ks as [| k' ks IH]; simpl; [done |].
  intros [Hk Hks]%orb_false_elim. rewrite (IH Hks).
  destruct (scalar_eqb n k') eqn:Hnk'; [| done].
  assert (scalar_eqb k k' = true) as Hkk'; [| congruence].
  apply (scalar_eqb_trans k n k'); [| done]. by rewrite scalar_eqb_sym.
Qed.

(** One turn of the loop either leaves the result alone or files the non-empty
    diff of the two matched records under the name. *)
Lemma compare_player_step old_view new_view acc acc' name :
  compare_player old_view new_view acc name = Ok acc' →
  acc' = match matched_diff old_view new_view name with
         | Some diff => pyset name diff acc
         | None => acc
         end
  ∧ ∀ old_p new_p,
      pyget name old_view = Some old_p → pyget name new_view = Some new_p →
      ∃ diff, diff_players old_p new_p = Ok diff.
Proof.
  unfold compare_player, matched_diff.
  destruct (pyget name old_view) as [old_p |]; [| by intros [= ->]].
  destruct (pyget name new_view) as [new_p |]; [| done].
  destruct (diff_players old_p new_p) as [diff | e] eqn:Hdiff; [| done].
  simpl. intros [= <-]. split.
  - by destruct diff.
  - intros ? ? [= <-] [= <-]. by exists diff.
Qed.

Lemma compare_players_lookup old_view new_view ks acc acc' n :
  distinct_keys ks →
  foldM (compare_player old_view new_view) ks acc = Ok acc' →
  pyget n acc'
  = match List.find (scalar_eqb n) ks with
    | Some k =>
        match matched_diff old_view new_view k with
        | Some diff => Some diff
        | None => pyget n acc
        end
    | None => pyget n acc
    end.
Proof.
  revert acc. induction ks as [| k ks IH]; intros acc Hks Hloop; simpl in *.
  - by injection Hloop as <-.
  - destruct Hks as [Hk Hks].
    destruct (compare_player old_view new_view acc k) as [acc1 | e] eqn:Hstep;
      [| done].
    simpl in Hloop. apply compare_player_step in Hstep as [-> _].
    rewrite (IH _ Hks Hloop). clear IH Hloop.
    destruct (scalar_eqb n k) eqn:Hnk.
    + rewrite (find_distinct_head n k ks Hnk Hk).
      destruct (matched_diff old_view new_view k) as [diff |]; [| done].
      rewrite pyget_pyset. change (key_eqb n k) with (scalar_eqb n k).
      by rewrite Hnk.
    + assert (pyget n match matched_diff old_view new_view k with
                      | Some diff => pyset k diff acc
                      | None => acc
                      end = pyget n acc) as ->; [| done].
      destruct (matched_diff old_view new_view k) as [diff |]; [| done].
      rewrite pyget_pyset. change (key_eqb n k) with (scalar_eqb n k).
      by rewrite Hnk.
Qed.

Lemma compare_players_total old_view new_view ks acc acc' k old_p new_p :
  foldM (compare_player old_view new_view) ks acc = Ok acc' →
  In k ks →
  pyget k old_view = Some old_p → pyget k new_view = Some new_p →
  ∃ diff, diff_players old_p new_p = Ok diff.
Proof.
  revert acc. induction ks as [| k' ks IH]; intros acc Hloop Hin; [done |].
  simpl in Hloop.
  destruct (compare_player old_view new_view acc k') as [acc1 | e] eqn:Hstep;
    [| done].
  destruct Hin as [-> | Hin].
  - apply compare_player_step in Hstep as [_ Hdiff]. eauto.
  - eauto.
Qed.

Lemma matched_diff_congr old_view new_view n k :
  scalar_eqb n k = true →
  matched_diff old_view new_view n = matched_diff old_view new_view k.
Proof.
  intros Hnk. unfold matched_diff.
  by rewrite (pyget_congr (H:=scalar_key) n k old_view Hnk),
             (pyget_congr (H:=scalar_key) n k new_view Hnk).
Qed.

Lemma find_key_mem n (view : players_view) :
  match List.find (scalar_eqb n) (pykeys view) with
  | Some k => scalar_eqb n k = true ∧ In k (pykeys view)
  | None => pyget n view = None
  end.
Proof.
  unfold pykeys. induction view as [| [k p] view IH]; simpl; [done |].
  change (key_eqb n k) with (scalar_eqb n k).
  destruct (scalar_eqb n k) eqn:Hnk; [auto |].
  destruct (List.find (scalar_eqb n) (map fst view)); [| done].
  destruct IH; auto.
Qed.

(** The steps of [compare_snapshots], when it returns a change set. *)
Lemma compare_snapshots_inv old_snapshot new_snapshot cs :
  compare_snapshots old_snapshot new_snapshot = Ok cs →
  ∃ old_view new_view,
    players_by_name old_snapshot = Ok old_view
    ∧ players_by_name new_snapshot = Ok new_view
    ∧ new_players cs = names_missing_from new_view old_view
    ∧ removed_players cs = names_missing_from old_view new_view
    ∧ foldM (compare_player old_view new_view) (pykeys new_view) []
      = Ok (attribute_changes cs).
Proof.
  unfold compare_snapshots.
  destruct (players_by_name old_snapshot) as [old_view | e]; [| done].
  destruct (players_by_name new_snapshot) as [new_view | e]; [| done].
  simpl.
  destruct (foldM (compare_player old_view new_view) (pykeys new_view) [])
    as [attrs | e] eqn:Hattrs; [| done].
  simpl. intros [= <-]. by exists old_view, new_view.
Qed.

Lemma attribute_changes_lookup old_snapshot new_snapshot cs old_view new_view n :
  players_by_name old_snapshot = Ok old_view →
  players_by_name new_snapshot = Ok new_view →
  foldM (compare_player old_view new_view) (pykeys new_view) []
  = Ok (attribute_changes cs) →
  pyget n (attribute_changes cs) = matched_diff old_view new_view n.
Proof.
  intros Hold Hnew Hloop.
  assert (distinct_keys (pykeys new_view)) as Hkeys.
  { rewrite (players_by_name_keys _ _ Hnew). apply first_seen_distinct. }
  rewrite (compare_players_lookup _ _ _ _ _ n Hkeys Hloop).
  pose proof (find_key_mem n new_view) as Hfind.
  destruct (List.find (scalar_eqb n) (pykeys new_view)) as [k |].
  - destruct Hfind as [Hnk _]. rewrite (matched_diff_congr _ _ n k Hnk).
    by destruct (matched_diff old_view new_view k).
  - unfold matched_diff. rewrite Hfind. by destruct (pyget n old_view).
Qed.

(** ** CompareTeamSnapshots.forward *)

Lemma forward_with_baseline `{JsonLib} fs team_id old_snapshot new_snapshot :
  LoadTeamSnapshot_forward fs team_id = Ok (Some old_snapshot) →
  CompareTeamSnapshots_forward fs team_id new_snapshot
  = (changes ← compare_snapshots old_snapshot new_snapshot; Ok (Some changes)).
Proof. intros Hload. unfold CompareTeamSnapshots_forward. by rewrite Hload. Qed.

Lemma forward_changes `{JsonLib} fs team_id old_snapshot new_snapshot cs :
  LoadTeamSnapshot_forward fs team_id = Ok (Some old_snapshot) →
  CompareTeamSnapshots_forward fs team_id new_snapshot = Ok (Some cs) →
  compare_snapshots old_snapshot new_snapshot = Ok cs.
Proof.
  intros Hload. rewrite (forward_with_baseline _ _ _ _ Hload).
  destruct (compare_snapshots old_snapshot new_snapshot) as [cs' | e]; [| done].
  simpl. by intros [= ->].
Qed.

(** C1. The change set of [CompareTeamSnapshots.forward] lists as added the
    identities of the new view that are not in the old view, in the order in
    which the new collection first shows them, and as removed the identities
    of the old view that are not in the new view, in the order in which the
    old collection first shows them. Both views hold exactly the identities
    of their collection, and no record is left out of them. *)
Theorem added_removed_first_seen `{JsonLib} fs team_id old_snapshot new_snapshot cs :
  LoadTeamSnapshot_forward fs team_id = Ok (Some old_snapshot) →
  CompareTeamSnapshots_forward fs team_id new_snapshot = Ok (Some cs) →
  ∃ old_view new_view,
    players_by_name old_snapshot = Ok old_view
    ∧ players_by_name new_snapshot = Ok new_view
    ∧ map identity old_snapshot = map Some (identities old_snapshot)
    ∧ map identity new_snapshot = map Some (identities new_snapshot)
    ∧ pykeys old_view = first_seen (identities old_snapshot)
    ∧ pykeys new_view = first_seen (identities new_snapshot)
    ∧ new_players cs
      = filter (λ n, pymem n old_view = false) (pykeys new_view)
    ∧ removed_players cs
      = filter (λ n, pymem n new_view = false) (pykeys old_view)
    ∧ new_players cs = only_in new_snapshot old_snapshot
    ∧ removed_players cs = only_in old_snapshot new_snapshot.
Proof.
  intros Hload Hforward.
  pose proof (forward_changes _ _ _ _ _ Hload Hforward) as Hcs.
  apply compare_snapshots_inv in Hcs
    as (old_view & new_view & Hold & Hnew & Hadded & Hremoved & _).
  exists old_view, new_view.
  rewrite Hadded, Hremoved, !names_missing_from_filter.
  rewrite (players_by_name_keys _ _ Hold), (players_by_name_keys _ _ Hnew).
  repeat split; try done.
  - by apply (index_by_name_identities _ _ _ Hold).
  - by apply (index_by_name_identities _ _ _ Hnew).
  - unfold only_in. apply list_filter_iff. intros n.
    by rewrite (players_by_name_mem _ _ n Hold).
  - unfold only_in. apply list_filter_iff. intros n.
    by rewrite (players_by_name_mem _ _ n Hnew).
Qed.

Lemma added_removed_first_seen_witness :
  new_players changes_after = only_in roster_after roster_before
  ∧ removed_players changes_after = only_in roster_before roster_after.
Proof.
  destruct (added_removed_first_seen (H:=PyJson.lib) disk_before 7
              roster_before roster_after changes_after)
    as (old_view & new_view & _ & _ & _ & _ & _ & _ & _ & _ & Hadded & Hremoved).
  - vm_compute. reflexivity.
  - vm_compute. reflexivity.
  - split; [exact Hadded | exact Hremoved].
Defined.

(** C2. When no previous snapshot exists for a team, so that
    [LoadTeamSnapshot.forward] returns [None], [CompareTeamSnapshots.forward]
    returns [None] whatever the new collection is: neither a change set nor
    an exception. *)
Theorem no_baseline_gives_none `{JsonLib} fs team_id new_snapshot :
  LoadTeamSnapshot_forward fs team_id = Ok None →
  CompareTeamSnapshots_forward fs team_id new_snapshot = Ok None.
Proof.
  intros Hload. unfold CompareTeamSnapshots_forward. by rewrite Hload.
Qed.

Lemma no_baseline_gives_none_witness :
  CompareTeamSnapshots_forward (H:=PyJson.lib) ∅ 7 roster_after = Ok None.
Proof.
  apply (no_baseline_gives_none (H:=PyJson.lib) ∅ 7 roster_after).
  vm_compute. reflexivity.
Defined.

(** A team that was never saved has no file, and loading it gives [None]. *)
Lemma load_missing_file `{JsonLib} (fs : filesystem) team_id :
  fs !! snapshot_filename team_id = None →
  LoadTeamSnapshot_forward fs team_id = Ok None.
Proof. intros Hfile. unfold LoadTeamSnapshot_forward. by rewrite Hfile. Qed.

(** ** Duplicate identities *)

Lemma last_with_identity_split c before p after n :
  c = before ++ p :: after →
  has_identity n p = true →
  forallb (λ q, negb (has_identity n q)) after = true →
  last_with_identity n c = Some p.
Proof.
  intros -> Hp Hafter. unfold last_with_identity.
  rewrite rev_app_distr. simpl. rewrite <- app_assoc, find_app.
  assert (List.find (has_identity n) (rev after) = None) as ->.
  { clear Hp. induction after as [| q after IH]; simpl in *; [done |].
    apply andb_prop in Hafter as [Hq Hafter].
    rewrite find_app, (IH Hafter). simpl.
    by destruct (has_identity n q). }
  simpl. by rewrite Hp.
Qed.

Lemma players_by_name_later_wins c view :
  players_by_name c = Ok view → later_record_wins c view.
Proof.
  intros Hview before p after n Hc Hp Hafter.
  rewrite (players_by_name_lookup _ _ n Hview).
  by apply (last_with_identity_split c before p after n).
Qed.

(** C9. When several records of a collection carry the same identity, the
    identity-indexed view maps it to the one that comes last; this holds for
    the view of the old collection and for the view of the new one, and the
    attribute changes are computed from the records of these two views. *)
Theorem duplicate_identity_last_wins old_snapshot new_snapshot cs :
  compare_snapshots old_snapshot new_snapshot = Ok cs →
  ∃ old_view new_view,
    players_by_name old_snapshot = Ok old_view
    ∧ players_by_name new_snapshot = Ok new_view
    ∧ later_record_wins old_snapshot old_view
    ∧ later_record_wins new_snapshot new_view
    ∧ (∀ n, pyget n old_view = last_with_identity n old_snapshot)
    ∧ (∀ n, pyget n new_view = last_with_identity n new_snapshot)
    ∧ (∀ n, pyget n (attribute_changes cs) = matched_diff old_view new_view n).
Proof.
  intros Hcs. apply compare_snapshots_inv in Hcs
    as (old_view & new_view & Hold & Hnew & _ & _ & Hloop).
  exists old_view, new_view. repeat split; try done.
  - by apply players_by_name_later_wins.
  - by apply players_by_name_later_wins.
  - intros n. by apply players_by_name_lookup.
  - intros n. by apply players_by_name_lookup.
  - intros n. by apply (attribute_changes_lookup old_snapshot new_snapshot).
Qed.

Lemma duplicate_identity_last_wins_witness :
  ∃ old_view new_view,
    players_by_name roster_twice = Ok old_view
    ∧ players_by_name roster_after = Ok new_view
    ∧ pyget (SStr "A") old_view = Some (player "A" [("age", Atom (SInt 30))])
    ∧ pyget (SStr "A") (attribute_changes changes_twice)
      = matched_diff old_view new_view (SStr "A").
Proof.
  destruct (duplicate_identity_last_wins roster_twice roster_after changes_twice)
    as (old_view & new_view & Hold & Hnew & Hwins & _ & _ & _ & Hattrs).
  - vm_compute. reflexivity.
  - exists old_view, new_view. repeat split; [exact Hold | exact Hnew | | apply Hattrs].
    apply (Hwins [player "A" [("age", Atom (SInt 20))];
                  player "B" [("age", Atom (SInt 19))]]
                 (player "A" [("age", Atom (SInt 30))]) [] (SStr "A"));
      reflexivity.
Defined.

(** ** Attribute changes *)

Lemma field_change_is_Some old_fields new_fields field :
  is_Some (field_change old_fields new_fields field)
  ↔ py_neb (get_or_none field old_fields) (get_or_none field new_fields) = true.
Proof.
  unfold field_change. by destruct (py_neb _ _).
Qed.

Lemma reported_change_is_Some old_p new_p field :
  is_Some (reported_change old_p new_p field)
  ↔ (is_top_level_attr field = true
     ∧ py_neb (get_or_none field old_p) (get_or_none field new_p) = true)
    ∨ (is_old_skill old_p field = true
       ∧ py_neb (get_or_none field (skills_of old_p))
                (get_or_none field (skills_of new_p)) = true).
Proof.
  rewrite <- !field_change_is_Some. unfold reported_change.
  destruct (is_old_skill old_p field), (is_top_level_attr field),
    (field_change (skills_of old_p) (skills_of new_p) field),
    (field_change old_p new_p field); simpl;
    split; intros Hs; try (by eauto);
    try (by destruct Hs as [[? Hs] | [? Hs]]; try done;
         try (by destruct Hs); eauto).
Qed.

(** C3. For an identity present in both views the records are compared on
    the eleven fixed top-level attributes and on nothing else at top level,
    with [!=] and a missing field read as [None]; every entry of the diff is
    one of these attributes or a skill of the old record; and the identity is
    in [attribute_changes] exactly when one of the compared fields differs. *)
Theorem attribute_changes_fixed_fields old_snapshot new_snapshot cs n old_p new_p :
  compare_snapshots old_snapshot new_snapshot = Ok cs →
  last_with_identity n old_snapshot = Some old_p →
  last_with_identity n new_snapshot = Some new_p →
  ∃ diff,
    diff_players old_p new_p = Ok diff
    ∧ (∀ field, is_old_skill old_p field = false →
         pyget field diff
         = if is_top_level_attr field
           then (if py_neb (get_or_none field old_p) (get_or_none field new_p)
                 then Some (Change (get_or_none field old_p)
                                   (get_or_none field new_p))
                 else None)
           else None)
    ∧ (∀ field, is_Some (pyget field diff) →
         field ∈ TOP_LEVEL_ATTRS ∨ is_old_skill old_p field = true)
    ∧ pyget n (attribute_changes cs)
      = match diff with [] => None | _ :: _ => Some diff end
    ∧ (is_Some (pyget n (attribute_changes cs))
       ↔ ∃ field,
           (is_top_level_attr field = true
            ∧ py_neb (get_or_none field old_p) (get_or_none field new_p) = true)
           ∨ (is_old_skill old_p field = true
              ∧ py_neb (get_or_none field (skills_of old_p))
                       (get_or_none field (skills_of new_p)) = true)).
Proof.
  intros Hcs Hold_p Hnew_p.
  apply compare_snapshots_inv in Hcs
    as (old_view & new_view & Hold & Hnew & _ & _ & Hloop).
  rewrite <- (players_by_name_lookup _ _ n Hold) in Hold_p.
  rewrite <- (players_by_name_lookup _ _ n Hnew) in Hnew_p.
  pose proof (find_key_mem n new_view) as Hfind.
  destruct (List.find (scalar_eqb n) (pykeys new_view)) as [k |];
    [| congruence].
  destruct Hfind as [Hnk Hin].
  rewrite (pyget_congr (H:=scalar_key) n k _ Hnk) in Hold_p.
  rewrite (pyget_congr (H:=scalar_key) n k _ Hnk) in Hnew_p.
  destruct (compare_players_total _ _ _ _ _ _ _ _ Hloop Hin Hold_p Hnew_p)
    as [diff Hdiff].
  assert (pyget n (attribute_changes cs)
          = match diff with [] => None | _ :: _ => Some diff end) as Hentry.
  { rewrite (attribute_changes_lookup _ _ _ _ _ n Hold Hnew Hloop).
    rewrite (matched_diff_congr _ _ n k Hnk). unfold matched_diff.
    rewrite Hold_p, Hnew_p, Hdiff. by destruct diff. }
  exists diff. split; [done |]. split; [| split; [| split; [done |]]].
  - intros field Hskill. rewrite (diff_players_lookup _ _ _ field Hdiff).
    unfold reported_change, field_change. by rewrite Hskill.
  - intros field. rewrite (diff_players_lookup _ _ _ field Hdiff).
    rewrite reported_change_is_Some. intros [[Htop _] | [Hskill _]]; [| by right].
    left. unfold is_top_level_attr in Htop.
    apply existsb_exists in Htop as (a & Ha & ->%String.eqb_eq).
    by apply list_elem_of_In.
  - rewrite Hentry. split.
    + destruct diff as [| [field c] diff]; [by intros [? ?] |]. intros _.
      exists field. apply reported_change_is_Some.
      rewrite <- (diff_players_lookup _ _ _ field Hdiff), pyget_head. eauto.
    + intros [field Hfield%reported_change_is_Some].
      rewrite <- (diff_players_lookup _ _ _ field Hdiff) in Hfield.
      destruct diff; [by destruct Hfield | eauto].
Qed.

Lemma attribute_changes_fixed_fields_witness :
  ∃ diff,
    diff_players (player "A" [("age", Atom (SInt 20))])
                 (player "A" [("age", Atom (SInt 21))]) = Ok diff
    ∧ pyget (SStr "A") (attribute_changes changes_after)
      = match diff with [] => None | _ :: _ => Some diff end.
Proof.
  destruct (attribute_changes_fixed_fields roster_before roster_after
              changes_after (SStr "A")
              (player "A" [("age", Atom (SInt 20))])
              (player "A" [("age", Atom (SInt 21))]))
    as (diff & Hdiff & _ & _ & Hentry & _).
  - vm_compute. reflexivity.
  - vm_compute. reflexivity.
  - vm_compute. reflexivity.
  - exists diff. split; [exact Hdiff | exact Hentry].
Defined.

(** An identity that one of the two views lacks has no attribute changes. *)
Lemma attribute_changes_unmatched old_snapshot new_snapshot cs n :
  compare_snapshots old_snapshot new_snapshot = Ok cs →
  last_with_identity n old_snapshot = None
  ∨ last_with_identity n new_snapshot = None →
  pyget n (attribute_changes cs) = None.
Proof.
  intros Hcs Hnone. apply compare_snapshots_inv in Hcs
    as (old_view & new_view & Hold & Hnew & _ & _ & Hloop).
  rewrite (attribute_changes_lookup _ _ _ _ _ n Hold Hnew Hloop).
  unfold matched_diff.
  rewrite (players_by_name_lookup _ _ n Hold), (players_by_name_lookup _ _ n Hnew).
  destruct Hnone as [-> | ->]; [done |].
  by destruct (last_with_identity n old_snapshot).
Qed.

(** ** Skills *)

Lemma existsb_eqb_elem_of (k : string) (l : list string) :
  existsb (String.eqb k) l = true ↔ k ∈ l.
Proof.
  rewrite existsb_exists, list_elem_of_In. split.
  - by intros (x & Hx & ->%String.eqb_eq).
  - intros Hk. exists k. by rewrite String.eqb_refl.
Qed.

Lemma existsb_eqb_not_elem_of (k : string) (l : list string) :
  k ∉ l → existsb (String.eqb k) l = false.
Proof.
  intros Hk. apply not_true_is_false. by rewrite existsb_eqb_elem_of.
Qed.

(** C4. The skills of two matched records are compared along the keys of the
    old record's sub-mapping only: a key that is not among them is never
    reported by the skills comparison, so a skill that only the new record
    has is not reported as a change, while every old key whose value differs
    in the new sub-mapping, a missing one counting as [None], is reported
    with its old and its new value. *)
Theorem skills_follow_old_keys old_p new_p old_skills new_skills :
  pyget "skills" old_p = Some (VDict old_skills) →
  pyget "skills" new_p = Some (VDict new_skills) →
  ∃ diff,
    diff_players old_p new_p = Ok diff
    ∧ (∀ skill, skill ∉ pykeys old_skills →
         pyget skill diff = pyget skill (check_top_level old_p new_p []))
    ∧ (∀ skill, skill ∈ pykeys new_skills → skill ∉ pykeys old_skills →
         skill ∉ TOP_LEVEL_ATTRS → pyget skill diff = None)
    ∧ (∀ skill, skill ∈ pykeys old_skills →
         py_neb (get_or_none skill old_skills) (get_or_none skill new_skills)
         = true →
         pyget skill diff
         = Some (Change (get_or_none skill old_skills)
                        (get_or_none skill new_skills)))
    ∧ (∀ skill, skill ∈ pykeys old_skills →
         py_neb (get_or_none skill old_skills) (get_or_none skill new_skills)
         = false →
         pyget skill diff = pyget skill (check_top_level old_p new_p [])).
Proof.
  intros Hold Hnew.
  assert (diff_players old_p new_p
          = Ok (record_entries (field_change old_skills new_skills)
                  (pykeys old_skills) (check_top_level old_p new_p [])))
    as Hdiff.
  { unfold diff_players, check_skills. rewrite Hold.
    by apply check_skills_loop. }
  eexists. split; [exact Hdiff |].
  repeat split; intros skill.
  - intros Hskill. rewrite record_entries_lookup.
    by rewrite (existsb_eqb_not_elem_of _ _ Hskill).
  - intros _ Hskill Hattr. rewrite record_entries_lookup.
    rewrite (existsb_eqb_not_elem_of _ _ Hskill).
    rewrite check_top_level_entries, record_entries_lookup.
    by rewrite (existsb_eqb_not_elem_of _ _ Hattr).
  - intros Hskill%existsb_eqb_elem_of Hdiffers.
    rewrite record_entries_lookup, Hskill.
    unfold field_change. by rewrite Hdiffers.
  - intros Hskill%existsb_eqb_elem_of Hsame.
    rewrite record_entries_lookup, Hskill.
    unfold field_change. by rewrite Hsame.
Qed.

Lemma skills_follow_old_keys_witness :
  ∃ diff,
    diff_players skilled_before skilled_after = Ok diff
    ∧ pyget "kick" diff = None
    ∧ pyget "tackle" diff = Some (Change (Atom (SInt 5)) (Atom (SInt 6)))
    ∧ pyget "pass" diff = Some (Change (Atom (SInt 7)) PyNone).
Proof.
  destruct (skills_follow_old_keys skilled_before skilled_after
              [("tackle", Atom (SInt 5)); ("pass", Atom (SInt 7))]
              [("tackle", Atom (SInt 6)); ("kick", Atom (SInt 3))])
    as (diff & Hdiff & _ & Hnew & Hold & _).
  - reflexivity.
  - reflexivity.
  - exists diff. split; [exact Hdiff |]. split; [| split].
    + apply Hnew; apply (bool_decide_unpack _); vm_compute; reflexivity.
    + apply (Hold "tackle");
        [apply (bool_decide_unpack _); vm_compute; reflexivity | reflexivity].
    + apply (Hold "pass");
        [apply (bool_decide_unpack _); vm_compute; reflexivity | reflexivity].
Defined.

(** C5. A new record without the skills sub-mapping, matched to an old record
    that has skills, makes [CompareTeamSnapshots.forward] raise [KeyError]:
    [new_p["skills"]] is read without the default that [old_p.get("skills", {})]
    has. *)
Theorem missing_new_skills_raise :
  LoadTeamSnapshot_forward (H:=PyJson.lib) disk_skilled 7
  = Ok (Some [skilled_before])
  ∧ CompareTeamSnapshots_forward (H:=PyJson.lib) disk_skilled 7 [unskilled_after]
    = Raise (KeyError (SStr "skills")).
Proof. split; vm_compute; reflexivity. Qed.

(** ** Records without the identity field *)

Lemma index_by_name_missing c acc :
  (∃ p, p ∈ c ∧ pyget "name" p = None) →
  (∃ e, index_by_name c acc = Raise e)
  ∧ (Forall name_hashable c → index_by_name c acc = Raise (KeyError (SStr "name"))).
Proof.
  intros (p & Hin & Hmissing). revert acc.
  induction c as [| q c IH]; intros acc; [by apply not_elem_of_nil in Hin |].
  apply elem_of_cons in Hin as [<- | Hin]; simpl.
  - rewrite Hmissing. split; [eauto | done].
  - destruct (pyget "name" q) as [[name | l | d] |] eqn:Hq.
    + destruct (IH Hin (pyset name q acc)) as [Hraise Hkey].
      split; [done |]. intros Hall. apply Hkey. by inversion Hall.
    + split; [eauto |]. intros Hall. inversion Hall as [| ? ? Hhash _].
      by destruct (Hhash _ Hq).
    + split; [eauto |]. intros Hall. inversion Hall as [| ? ? Hhash _].
      by destruct (Hhash _ Hq).
    + split; [eauto | done].
Qed.

(** With hashable names the only failure of the indexing is a missing name. *)
Lemma index_by_name_hashable c acc e :
  Forall name_hashable c → index_by_name c acc = Raise e →
  e = KeyError (SStr "name").
Proof.
  revert acc. induction c as [| q c IH]; intros acc Hall; simpl; [done |].
  inversion Hall as [| ? ? Hq Hc]; subst.
  destruct (pyget "name" q) as [[name | l | d] |] eqn:Hname.
  - by apply IH.
  - by destruct (Hq _ Hname).
  - by destruct (Hq _ Hname).
  - by intros [= <-].
Qed.

Lemma compare_snapshots_missing old_snapshot new_snapshot :
  (∃ p, p ∈ old_snapshot ++ new_snapshot ∧ pyget "name" p = None) →
  (∃ e, compare_snapshots old_snapshot new_snapshot = Raise e)
  ∧ (Forall name_hashable (old_snapshot ++ new_snapshot) →
     compare_snapshots old_snapshot new_snapshot = Raise (KeyError (SStr "name"))).
Proof.
  intros (p & Hin & Hmissing). unfold compare_snapshots, players_by_name.
  apply elem_of_app in Hin as [Hin | Hin].
  - destruct (index_by_name_missing old_snapshot [])
      as [[e He] Hkey]; [by exists p |].
    split.
    + exists e. by rewrite He.
    + intros [Hall _]%Forall_app. by rewrite (Hkey Hall).
  - destruct (index_by_name_missing new_snapshot [])
      as [[e He] Hkey]; [by exists p |].
    split.
    + destruct (index_by_name old_snapshot []) as [old_view | e']; simpl.
      * exists e. by rewrite He.
      * by exists e'.
    + intros [Hold Hnew]%Forall_app.
      destruct (index_by_name old_snapshot []) as [old_view | e'] eqn:Hview; simpl.
      * by rewrite (Hkey Hnew).
      * by rewrite (index_by_name_hashable _ _ _ Hold Hview).
Qed.

(** C6, as the code has it. A record without the identity field is not
    skipped: once the previous snapshot is loaded, such a record in the old or
    in the new collection makes [CompareTeamSnapshots.forward] raise, and the
    exception is [KeyError] on ["name"] when the names that are present are
    hashable. *)
Theorem missing_identity_raises `{JsonLib} fs team_id old_snapshot new_snapshot :
  LoadTeamSnapshot_forward fs team_id = Ok (Some old_snapshot) →
  (∃ p, p ∈ old_snapshot ++ new_snapshot ∧ pyget "name" p = None) →
  (∃ e, CompareTeamSnapshots_forward fs team_id new_snapshot = Raise e)
  ∧ (Forall name_hashable (old_snapshot ++ new_snapshot) →
     CompareTeamSnapshots_forward fs team_id new_snapshot
     = Raise (KeyError (SStr "name"))).
Proof.
  intros Hload Hmissing. rewrite (forward_with_baseline _ _ _ _ Hload).
  destruct (compare_snapshots_missing _ _ Hmissing) as [[e He] Hkey]. split.
  - exists e. by rewrite He.
  - intros Hall. by rewrite (Hkey Hall).
Qed.

Lemma missing_identity_raises_witness :
  ∃ e, CompareTeamSnapshots_forward (H:=PyJson.lib) disk_before 7
         [nameless; player "B" []] = Raise e.
Proof.
  apply (missing_identity_raises (H:=PyJson.lib) disk_before 7 roster_before
           [nameless; player "B" []]).
  - vm_compute. reflexivity.
  - exists nameless. split; [| reflexivity].
    apply elem_of_app. right. apply elem_of_cons. left. reflexivity.
Defined.

(** The comparison fails on a new collection whose first record has no
    ["name"]: the record is not skipped and no change set is returned. *)
Lemma missing_identity_not_skipped :
  LoadTeamSnapshot_forward (H:=PyJson.lib) disk_before 7 = Ok (Some roster_before)
  ∧ CompareTeamSnapshots_forward (H:=PyJson.lib) disk_before 7
      [nameless; player "B" []] = Raise (KeyError (SStr "name")).
Proof. split; vm_compute; reflexivity. Qed.

(** ** The reference [json] module reads back what it writes *)

Section json_round_trip.
Import PyJson.

Local Arguments String.append : simpl nomatch.

Lemma string_app_assoc (a b c : string) : (a +:+ b) +:+ c = a +:+ b +:+ c.
Proof. induction a as [| x a IH]; simpl; [done |]. by rewrite IH. Qed.

Lemma string_app_length (a b : string) :
  String.length (a +:+ b) = (String.length a + String.length b)%nat.
Proof. induction a as [| x a IH]; simpl; [done |]. by rewrite IH. Qed.

(** *** Strings *)

Lemma parse_escaped_char c tail :
  parse_chars (escape_char c +:+ tail)
  = '(body, rest) ← parse_chars tail; Some (String c body, rest).
Proof.
  destruct c as [[] [] [] [] [] [] [] []]; reflexivity.
Qed.

Lemma parse_escaped s rest :
  parse_chars (escape s +:+ String QUOTE rest) = Some (s, rest).
Proof.
  induction s as [| c s IH]; simpl; [done |].
  by rewrite string_app_assoc, parse_escaped_char, IH.
Qed.

(** *** Integers *)

Lemma digit_value_char (d : N) :
  (d < 10)%N → digit_value (pretty_N_char d) = Some (Z.of_N d).
Proof.
  intros Hd.
  assert (d = 0 ∨ d = 1 ∨ d = 2 ∨ d = 3 ∨ d = 4 ∨ d = 5 ∨ d = 6 ∨ d = 7
          ∨ d = 8 ∨ d = 9)%N as Hcases by lia.
  repeat (destruct Hcases as [-> | Hcases]; [reflexivity |]).
  by subst.
Qed.

Lemma parse_digits_terminated acc rest :
  terminated rest = true → parse_digits acc rest = (acc, rest).
Proof.
  destruct rest as [| c rest]; [done |]. simpl.
  intros [->%Ascii.eqb_eq | ->%Ascii.eqb_eq]%orb_prop; reflexivity.
Qed.

Lemma pretty_N_go_app x s rest :
  pretty_N_go x s +:+ rest = pretty_N_go x (s +:+ rest).
Proof.
  revert s. induction (N.lt_wf_0 x) as [x _ IH]; intros s.
  assert (x = 0 ∨ 0 < x)%N as [-> | Hx] by lia.
  - by rewrite !pretty_N_go_0.
  - rewrite (pretty_N_go_step x s), (pretty_N_go_step x (s +:+ rest)) by done.
    rewrite IH; [done |]. by apply N.div_lt.
Qed.

(** The text of a positive number starts with a digit other than zero, from
    which the remaining digits are read up to the value of the number. *)
Lemma pretty_N_go_leading x s :
  (0 < x)%N →
  ∃ c t dv,
    pretty_N_go x s = String c t ∧ digit_value c = Some dv ∧ 0 < dv
    ∧ parse_digits dv t = parse_digits (Z.of_N x) s.
Proof.
  revert s. induction (N.lt_wf_0 x) as [x _ IH]; intros s Hx.
  rewrite pretty_N_go_step by done.
  assert (x < 10 ∨ 10 ≤ x)%N as [Hsmall | Hlarge] by lia.
  - rewrite N.div_small, N.mod_small, pretty_N_go_0 by done.
    exists (pretty_N_char x), s, (Z.of_N x).
    rewrite digit_value_char by done. repeat split; try done. lia.
  - destruct (IH (x `div` 10)%N) with (s := String (pretty_N_char (x `mod` 10)) s)
      as (c & t & dv & Htext & Hdigit & Hpos & Hparse).
    + by apply N.div_lt.
    + apply N.div_str_pos. lia.
    + exists c, t, dv. repeat split; try done.
      rewrite Hparse. simpl.
      rewrite digit_value_char by (apply N.mod_lt; lia).
      f_equal. rewrite (N.div_mod x 10) at 3 by lia. lia.
Qed.

Lemma parse_nat_zero rest :
  terminated rest = true → parse_nat (String "0" rest) = Some (0, rest).
Proof.
  destruct rest as [| c rest]; [done |]. simpl.
  intros [->%Ascii.eqb_eq | ->%Ascii.eqb_eq]%orb_prop; reflexivity.
Qed.

Lemma parse_nat_positive x rest :
  (0 < x)%N → terminated rest = true →
  parse_nat (pretty_N_go x rest) = Some (Z.of_N x, rest).
Proof.
  intros Hx Hrest.
  destruct (pretty_N_go_leading x rest Hx) as (c & t & dv & -> & Hdigit & Hpos & Hparse).
  unfold parse_nat. rewrite Hdigit. simpl.
  destruct (Z.eqb_spec dv 0) as [-> | _]; [lia |].
  rewrite Hparse, parse_digits_terminated by done.
  destruct rest as [| c' rest]; [done |]. simpl in Hrest.
  apply orb_prop in Hrest as [->%Ascii.eqb_eq | ->%Ascii.eqb_eq]; reflexivity.
Qed.

Lemma parse_value_digit fuel c t d :
  digit_value c = Some d →
  parse_value (S fuel) (String c t)
  = '(n, rest) ← parse_nat (String c t); Some (Atom (SInt n), rest).
Proof. intros Hd. cbn [parse_value]. by rewrite Hd. Qed.

Lemma parse_value_minus fuel t :
  parse_value (S fuel) (String "-" t)
  = '(n, rest) ← parse_nat t; Some (Atom (SInt (- n)), rest).
Proof. reflexivity. Qed.

Lemma parse_value_int fuel z rest :
  terminated rest = true →
  parse_value (S fuel) (pretty z +:+ rest) = Some (Atom (SInt z), rest).
Proof.
  intros Hrest. destruct z as [| p | p]; unfold pretty, pretty_Z.
  - change ("0" +:+ rest) with (String "0" rest).
    by rewrite (parse_value_digit fuel "0" rest 0), parse_nat_zero.
  - unfold pretty, pretty_positive, pretty, pretty_N.
    rewrite decide_False by done. rewrite pretty_N_go_app.
    change ("" +:+ rest) with rest.
    pose proof (parse_nat_positive (N.pos p) rest eq_refl Hrest) as Hparse.
    destruct (pretty_N_go_leading (N.pos p) rest) as (c & t & dv & Htext & Hdigit & _);
      [done |].
    rewrite Htext in *. by rewrite (parse_value_digit fuel c t dv), Hparse.
  - unfold pretty, pretty_positive, pretty, pretty_N.
    rewrite decide_False by done.
    change (("-" +:+ pretty_N_go (N.pos p) "") +:+ rest)
      with (String "-" (pretty_N_go (N.pos p) "" +:+ rest)).
    rewrite pretty_N_go_app. change ("" +:+ rest) with rest.
    by rewrite parse_value_minus, (parse_nat_positive (N.pos p) rest eq_refl Hrest).
Qed.

(** *** Scalars *)

Lemma parse_value_scalar fuel a rest :
  terminated rest = true →
  parse_value (S fuel) (encode_scalar a +:+ rest) = Some (Atom a, rest).
Proof.
  intros Hrest. destruct a as [| [|] | z | s]; try reflexivity.
  - by apply parse_value_int.
  - unfold encode_scalar, encode_string.
    change (String QUOTE (escape s +:+ String QUOTE "") +:+ rest)
      with (String QUOTE ((escape s +:+ String QUOTE "") +:+ rest)).
    rewrite string_app_assoc. cbn [parse_value]. simpl digit_value.
    change (String QUOTE "" +:+ rest) with (String QUOTE rest).
    cbv iota. simpl Ascii.eqb. cbv iota. by rewrite parse_escaped.
Qed.

(** *** White space and first characters *)

Lemma skip_ws_spaces n s : skip_ws (spaces n +:+ s) = skip_ws s.
Proof. induction n as [| n IH]; [done |]. simpl. apply IH. Qed.

Lemma skip_ws_newline_indent level s :
  skip_ws (newline_indent level +:+ s) = skip_ws s.
Proof.
  unfold newline_indent. rewrite string_app_assoc. simpl. apply skip_ws_spaces.
Qed.

Lemma skip_ws_token s : opens_token s = true → skip_ws s = s.
Proof.
  destruct s as [| c s]; [done |]. simpl.
  by destruct (is_whitespace c).
Qed.

Lemma digit_opens_token c t d :
  digit_value c = Some d → opens_token (String c t) = true.
Proof.
  destruct c as [[] [] [] [] [] [] [] []]; vm_compute; congruence.
Qed.

Lemma encode_scalar_opens_token a rest :
  opens_token (encode_scalar a +:+ rest) = true.
Proof.
  destruct a as [| [|] | z | s]; try reflexivity.
  destruct z as [| p | p]; try reflexivity.
  unfold encode_scalar, pretty, pretty_Z, pretty, pretty_positive, pretty, pretty_N.
  rewrite decide_False by done. rewrite pretty_N_go_app.
  destruct (pretty_N_go_leading (N.pos p) ("" +:+ rest))
    as (c & t & dv & -> & Hdigit & _); [done |].
  by apply (digit_opens_token c t dv).
Qed.

Lemma encode_opens_token level v rest :
  opens_token (encode level v +:+ rest) = true.
Proof.
  destruct v as [a | [| x l] | [| kv d]]; try reflexivity.
  apply encode_scalar_opens_token.
Qed.

(** *** Values *)

Lemma value_nested_ind (P : value → Prop) :
  (∀ a, P (Atom a)) →
  (∀ l, Forall P l → P (VList l)) →
  (∀ d, Forall (λ kv, P kv.2) d → P (VDict d)) →
  ∀ v, P v.
Proof.
  intros Hatom Hlist Hdict. fix IH 1. intros [a | l | d].
  - apply Hatom.
  - apply Hlist. induction l as [| x l IHl]; constructor; [apply IH | apply IHl].
  - apply Hdict. induction d as [| [k x] d IHd]; constructor; [apply IH | apply IHd].
Qed.

Local Arguments newline_indent : simpl never.
Local Arguments encode : simpl never.
Local Arguments parse_value : simpl never.
Local Arguments parse_items : simpl never.
Local Arguments parse_members : simpl never.
Local Arguments String.concat : simpl never.
Local Arguments separator : simpl never.
Local Arguments List.map : simpl never.

Lemma encode_list level x l :
  encode level (VList (x :: l))
  = "[" +:+ newline_indent (S level)
        +:+ String.concat (separator (S level)) (List.map (encode (S level)) (x :: l))
        +:+ newline_indent level +:+ "]".
Proof. reflexivity. Qed.

Lemma encode_dict level kv d :
  encode level (VDict (kv :: d))
  = "{" +:+ newline_indent (S level)
        +:+ String.concat (separator (S level))
              (List.map (encode_member (S level)) (kv :: d))
        +:+ newline_indent level +:+ "}".
Proof. reflexivity. Qed.

Lemma parse_items_step fuel s :
  parse_items (S fuel) s
  = '(v, rest) ← parse_value fuel s;
    match skip_ws rest with
    | String "," rest' =>
        '(l, rest'') ← parse_items fuel (skip_ws rest'); Some (v :: l, rest'')
    | String "]" rest' => Some ([v], rest')
    | _ => None
    end.
Proof. reflexivity. Qed.

Lemma parse_items_encoded level l :
  Forall reads_back l →
  ∀ x fuel rest,
    reads_back x →
    (need_items (x :: l) ≤ fuel)%nat →
    forallb well_formed (x :: l) = true →
    parse_items fuel
      (String.concat (separator level) (List.map (encode level) (x :: l))
       +:+ newline_indent (Nat.pred level) +:+ "]" +:+ rest)
    = Some (x :: l, rest).
Proof.
  induction 1 as [| y l Hy _ IH]; intros x fuel rest Hx Hfuel Hwf.
  - destruct fuel as [| fuel]; [simpl in Hfuel; lia |].
    simpl in Hfuel, Hwf. rewrite andb_true_r in Hwf.
    rewrite parse_items_step.
    change (String.concat (separator level) (List.map (encode level) [x]))
      with (encode level x).
    rewrite (Hx level fuel) by (done || lia).
    cbn. by rewrite skip_ws_newline_indent.
  - destruct fuel as [| fuel]; [simpl in Hfuel; lia |].
    change (need_items (x :: y :: l))
      with (S (Nat.max (need x) (need_items (y :: l)))) in Hfuel.
    change (forallb well_formed (x :: y :: l))
      with (well_formed x && forallb well_formed (y :: l)) in Hwf.
    apply andb_prop in Hwf as [Hwfx Hwf].
    rewrite parse_items_step.
    change (String.concat (separator level) (List.map (encode level) (x :: y :: l)))
      with (encode level x +:+ separator level
            +:+ String.concat (separator level) (List.map (encode level) (y :: l))).
    rewrite !string_app_assoc.
    rewrite (Hx level fuel) by (done || lia).
    unfold separator at 1. cbn. rewrite skip_ws_newline_indent.
    rewrite skip_ws_token; last first.
    { destruct l as [| z l].
      - apply encode_opens_token.
      - change (String.concat (separator level) (List.map (encode level) (y :: z :: l)))
          with (encode level y +:+ separator level
                +:+ String.concat (separator level) (List.map (encode level) (z :: l))).
        rewrite string_app_assoc. apply encode_opens_token. }
    change (String "]" rest) with ("]" +:+ rest).
    by rewrite (IH y fuel rest Hy) by (done || lia).
Qed.

Lemma parse_members_step fuel acc s :
  parse_members (S fuel) acc (String QUOTE s)
  = '(k, rest) ← parse_chars s;
    match skip_ws rest with
    | String ":" rest =>
        '(v, rest) ← parse_value fuel (skip_ws rest);
        match skip_ws rest with
        | String "," rest' => parse_members fuel (pyset k v acc) (skip_ws rest')
        | String "}" rest' => Some (pyset k v acc, rest')
        | _ => None
        end
    | _ => None
    end.
Proof. reflexivity. Qed.

Lemma encode_member_text level k x tail :
  encode_member level (k, x) +:+ tail
  = String QUOTE (escape k +:+ String QUOTE (String ":" (String " " (encode level x +:+ tail)))).
Proof.
  unfold encode_member, encode_string.
  change (String QUOTE (escape k +:+ String QUOTE "") +:+ ": " +:+ encode level x)
    with (String QUOTE ((escape k +:+ String QUOTE "") +:+ ": " +:+ encode level x)).
  change (String QUOTE ((escape k +:+ String QUOTE "") +:+ ": " +:+ encode level x) +:+ tail)
    with (String QUOTE (((escape k +:+ String QUOTE "") +:+ ": " +:+ encode level x) +:+ tail)).
  by rewrite !string_app_assoc.
Qed.

Lemma parse_members_encoded level d :
  Forall (λ kv, reads_back kv.2) d →
  ∀ kx fuel acc rest,
    reads_back kx.2 →
    (need_members (kx :: d) ≤ fuel)%nat →
    forallb (λ kv, let '(_, x) := kv in well_formed x) (kx :: d) = true →
    parse_members fuel acc
      (String.concat (separator level) (List.map (encode_member level) (kx :: d))
       +:+ newline_indent (Nat.pred level) +:+ "}" +:+ rest)
    = Some (fold_left store_member (kx :: d) acc, rest).
Proof.
  induction 1 as [| [k' y] d Hy _ IH]; intros [k x] fuel acc rest Hx Hfuel Hwf.
  - destruct fuel as [| fuel]; [simpl in Hfuel; lia |].
    simpl in Hfuel, Hwf, Hx. rewrite andb_true_r in Hwf.
    change (String.concat (separator level) (List.map (encode_member level) [(k, x)]))
      with (encode_member level (k, x)).
    rewrite encode_member_text, parse_members_step, parse_escaped. cbn.
    rewrite skip_ws_token by apply encode_opens_token.
    rewrite (Hx level fuel) by (done || lia).
    cbn. by rewrite skip_ws_newline_indent.
  - destruct fuel as [| fuel]; [simpl in Hfuel; lia |].
    change (need_members ((k, x) :: (k', y) :: d))
      with (S (Nat.max (need x) (need_members ((k', y) :: d)))) in Hfuel.
    change (forallb (λ kv, let '(_, x) := kv in well_formed x) ((k, x) :: (k', y) :: d))
      with (well_formed x
            && forallb (λ kv, let '(_, x) := kv in well_formed x) ((k', y) :: d))
      in Hwf.
    apply andb_prop in Hwf as [Hwfx Hwf]. simpl in Hx, Hy.
    change (String.concat (separator level)
              (List.map (encode_member level) ((k, x) :: (k', y) :: d)))
      with (encode_member level (k, x) +:+ separator level
            +:+ String.concat (separator level)
                  (List.map (encode_member level) ((k', y) :: d))).
    rewrite string_app_assoc, encode_member_text, parse_members_step, parse_escaped.
    cbn. rewrite skip_ws_token by apply encode_opens_token.
    rewrite !string_app_assoc.
    rewrite (Hx level fuel) by (done || lia).
    unfold separator at 1. cbn. rewrite skip_ws_newline_indent.
    rewrite skip_ws_token; last first.
    { destruct d as [| [k'' z] d].
      - reflexivity.
      - reflexivity. }
    change (String "}" rest) with ("}" +:+ rest).
    by rewrite (IH (k', y) fuel _ rest Hy) by (done || lia).
Qed.

Lemma pyset_fresh {V} (k : string) (v : V) (acc : pydict string V) :
  pymem k acc = false → pyset k v acc = acc ++ [(k, v)].
Proof.
  unfold pymem. induction acc as [| [k' v'] acc IH]; simpl; [done |].
  destruct (key_eqb k k'); [done |]. intros Hk. by rewrite IH.
Qed.

Lemma store_members_distinct (d acc : pydict string value) :
  distinct_fields (List.map fst d) = true →
  (∀ k, k ∈ List.map fst d → pymem k acc = false) →
  fold_left store_member d acc = acc ++ d.
Proof.
  revert acc. induction d as [| [k x] d IH]; intros acc Hdistinct Hfresh; simpl.
  - by rewrite app_nil_r.
  - simpl in Hdistinct. apply andb_prop in Hdistinct as [Hk Hdistinct].
    unfold store_member at 2. simpl.
    rewrite pyset_fresh by (apply Hfresh; simpl; apply elem_of_cons; by left).
    rewrite IH, <- app_assoc; [done | done |].
    intros k' Hk'. unfold pymem.
    assert (pyget k' (acc ++ [(k, x)]) = if key_eqb k' k then Some x else pyget k' acc)
      as ->.
    { rewrite <- (pyset_fresh k x acc)
        by (apply Hfresh; simpl; apply elem_of_cons; by left).
      apply pyget_pyset. }
    change (key_eqb k' k) with (String.eqb k' k).
    destruct (String.eqb_spec k' k) as [-> | Hne].
    + apply negb_true_iff in Hk. apply existsb_eqb_elem_of in Hk'. congruence.
    + apply Hfresh. simpl. apply elem_of_cons. by right.
Qed.

Lemma parse_value_open_list fuel s :
  parse_value (S fuel) (String "[" s)
  = match skip_ws s with
    | "" => None
    | String c rest =>
        if Ascii.eqb c "]" then Some (VList [], rest)
        else '(l, rest') ← parse_items fuel (String c rest); Some (VList l, rest')
    end.
Proof. reflexivity. Qed.

Lemma parse_value_open_dict fuel s :
  parse_value (S fuel) (String "{" s)
  = match skip_ws s with
    | "" => None
    | String c rest =>
        if Ascii.eqb c "}" then Some (VDict [], rest)
        else '(d, rest') ← parse_members fuel [] (String c rest); Some (VDict d, rest')
    end.
Proof. reflexivity. Qed.

Lemma opens_token_inv s :
  opens_token s = true →
  ∃ c t, s = String c t ∧ Ascii.eqb c "]" = false ∧ Ascii.eqb c "}" = false.
Proof.
  destruct s as [| c t]; [done |]. simpl.
  intros [[_ H1%negb_true_iff]%andb_prop H2%negb_true_iff]%andb_prop. eauto.
Qed.

Theorem encode_reads_back v : reads_back v.
Proof.
  induction v as [a | l IH | d IH] using value_nested_ind;
    intros level fuel rest Hfuel Hwf Hrest.
  - destruct fuel as [| fuel]; [simpl in Hfuel; lia |].
    by apply parse_value_scalar.
  - destruct fuel as [| fuel]; [simpl in Hfuel; lia |].
    destruct l as [| x l]; [reflexivity |].
    inversion IH as [| ? ? Hx Hl]; subst.
    rewrite encode_list.
    change ("[" +:+ newline_indent (S level)
                +:+ String.concat (separator (S level))
                      (List.map (encode (S level)) (x :: l))
                +:+ newline_indent level +:+ "]")
      with (String "[" (newline_indent (S level)
                +:+ String.concat (separator (S level))
                      (List.map (encode (S level)) (x :: l))
                +:+ newline_indent level +:+ "]")).
    change (String "[" ?s +:+ rest) with (String "[" (s +:+ rest)).
    rewrite !string_app_assoc, parse_value_open_list, skip_ws_newline_indent.
    assert (opens_token
              (String.concat (separator (S level))
                 (List.map (encode (S level)) (x :: l))
               +:+ newline_indent level +:+ "]" +:+ rest) = true) as Hopen.
    { destruct l as [| y l].
      - apply encode_opens_token.
      - change (String.concat (separator (S level))
                  (List.map (encode (S level)) (x :: y :: l)))
          with (encode (S level) x +:+ separator (S level)
                +:+ String.concat (separator (S level))
                      (List.map (encode (S level)) (y :: l))).
        rewrite string_app_assoc. apply encode_opens_token. }
    rewrite (skip_ws_token _ Hopen).
    pose proof (parse_items_encoded (S level) l Hl x fuel rest Hx) as Hitems.
    change (Nat.pred (S level)) with level in Hitems.
    destruct (opens_token_inv _ Hopen) as (c & t & Htext & Hc & _).
    rewrite Htext in *. rewrite Hc, Hitems; [done | |].
    + change (need (VList (x :: l))) with (S (need_items (x :: l))) in Hfuel. lia.
    + exact Hwf.
  - destruct fuel as [| fuel]; [simpl in Hfuel; lia |].
    destruct d as [| [k x] d]; [reflexivity |].
    inversion IH as [| ? ? Hx Hd]; subst.
    change (well_formed (VDict ((k, x) :: d)))
      with (distinct_fields (List.map fst ((k, x) :: d))
            && forallb (λ kv, let '(_, x) := kv in well_formed x) ((k, x) :: d))
      in Hwf.
    apply andb_prop in Hwf as [Hdistinct Hwf].
    rewrite encode_dict.
    change ("{" +:+ ?s) with (String "{" s).
    change (String "{" ?s +:+ rest) with (String "{" (s +:+ rest)).
    rewrite !string_app_assoc, parse_value_open_dict, skip_ws_newline_indent.
    assert (opens_token
              (String.concat (separator (S level))
                 (List.map (encode_member (S level)) ((k, x) :: d))
               +:+ newline_indent level +:+ "}" +:+ rest) = true) as Hopen.
    { destruct d as [| [k' y] d]; reflexivity. }
    rewrite (skip_ws_token _ Hopen).
    pose proof (parse_members_encoded (S level) d Hd (k, x) fuel [] rest Hx) as Hmembers.
    change (Nat.pred (S level)) with level in Hmembers.
    destruct (opens_token_inv _ Hopen) as (c & t & Htext & _ & Hc).
    rewrite Htext in *. rewrite Hc, Hmembers; [| |].
    + by rewrite store_members_distinct.
    + change (need (VDict ((k, x) :: d))) with (S (need_members ((k, x) :: d))) in Hfuel.
      lia.
    + exact Hwf.
Qed.

(** *** Fuel *)

Lemma string_app_nil_r (s : string) : s +:+ "" = s.
Proof. induction s as [| c s IH]; simpl; [done |]. by rewrite IH. Qed.

Lemma encode_scalar_length a : (1 ≤ String.length (encode_scalar a))%nat.
Proof.
  destruct a as [| [|] | z | s]; simpl; try lia.
  destruct z as [| p | p]; unfold pretty, pretty_Z; simpl; try lia.
  unfold pretty, pretty_positive, pretty, pretty_N. rewrite decide_False by done.
  destruct (pretty_N_go_leading (N.pos p) "") as (c & t & dv & -> & _); [done |].
  simpl. lia.
Qed.

Lemma newline_indent_length level : (1 ≤ String.length (newline_indent level))%nat.
Proof. unfold newline_indent. rewrite string_app_length. simpl. lia. Qed.

Lemma need_items_length level l :
  Forall (λ x, ∀ level, (need x ≤ String.length (encode level x))%nat) l →
  (need_items l
   ≤ S (String.length (String.concat (separator level) (List.map (encode level) l))))%nat.
Proof.
  induction 1 as [| x l Hx Hl IH]; [simpl; lia |].
  change (need_items (x :: l)) with (S (Nat.max (need x) (need_items l))).
  specialize (Hx level). destruct l as [| y l].
  - change (String.concat (separator level) (List.map (encode level) [x]))
      with (encode level x).
    simpl need_items. lia.
  - change (String.concat (separator level) (List.map (encode level) (x :: y :: l)))
      with (encode level x +:+ separator level
            +:+ String.concat (separator level) (List.map (encode level) (y :: l))).
    rewrite !string_app_length. unfold separator at 1.
    change (String.length ("," +:+ newline_indent level))
      with (S (String.length (newline_indent level))).
    lia.
Qed.

Lemma encode_member_length level k x :
  (String.length (encode level x) ≤ String.length (encode_member level (k, x)))%nat.
Proof.
  unfold encode_member. rewrite !string_app_length. lia.
Qed.

Lemma need_members_length level d :
  Forall (λ kv, ∀ level, (need kv.2 ≤ String.length (encode level kv.2))%nat) d →
  (need_members d
   ≤ S (String.length
          (String.concat (separator level) (List.map (encode_member level) d))))%nat.
Proof.
  induction 1 as [| [k x] d Hx Hd IH]; [simpl; lia |].
  change (need_members ((k, x) :: d)) with (S (Nat.max (need x) (need_members d))).
  specialize (Hx level). simpl in Hx.
  pose proof (encode_member_length level k x) as Hmember.
  destruct d as [| [k' y] d].
  - change (String.concat (separator level)
              (List.map (encode_member level) [(k, x)]))
      with (encode_member level (k, x)).
    simpl need_members. lia.
  - change (String.concat (separator level)
              (List.map (encode_member level) ((k, x) :: (k', y) :: d)))
      with (encode_member level (k, x) +:+ separator level
            +:+ String.concat (separator level)
                  (List.map (encode_member level) ((k', y) :: d))).
    rewrite !string_app_length. unfold separator at 1.
    change (String.length ("," +:+ newline_indent level))
      with (S (String.length (newline_indent level))).
    lia.
Qed.

Lemma need_length v level : (need v ≤ String.length (encode level v))%nat.
Proof.
  revert level. induction v as [a | l IH | d IH] using value_nested_ind;
    intros level.
  - apply encode_scalar_length.
  - destruct l as [| x l]; [simpl; lia |].
    rewrite encode_list, !string_app_length.
    change (need (VList (x :: l))) with (S (need_items (x :: l))).
    pose proof (need_items_length (S level) (x :: l) IH).
    pose proof (newline_indent_length (S level)). simpl String.length. lia.
  - destruct d as [| kv d]; [simpl; lia |].
    rewrite encode_dict, !string_app_length.
    change (need (VDict (kv :: d))) with (S (need_members (kv :: d))).
    pose proof (need_members_length (S level) (kv :: d) IH).
    pose proof (newline_indent_length (S level)). simpl String.length. lia.
Qed.

(** The reference [json] module reads back every well-formed value. *)
Theorem loads_dumps v : well_formed v = true → loads (dumps v) = Some v.
Proof.
  intros Hwf. unfold loads, dumps.
  rewrite skip_ws_token
    by (rewrite <- (string_app_nil_r (encode 0 v)); apply encode_opens_token).
  rewrite <- (string_app_nil_r (encode 0 v)) at 2.
  rewrite (encode_reads_back v 0%nat _ "" ); try done.
  pose proof (need_length v 0). lia.
Qed.

Lemma well_formed_collection (c : collection) :
  well_formed (value_of_collection c)
  = forallb (λ p, well_formed (VDict p)) c.
Proof.
  unfold value_of_collection. simpl. induction c as [| p c IH]; [done |].
  simpl. by rewrite IH.
Qed.

End json_round_trip.

(** ** The snapshot store *)

Lemma records_of_values_dicts (c : collection) :
  records_of_values (map VDict c) = Some c.
Proof.
  induction c as [| p c IH]; simpl; [done |]. by rewrite IH.
Qed.

Lemma collection_of_value_of_collection (c : collection) :
  collection_of_value (value_of_collection c) = Some c.
Proof. apply records_of_values_dicts. Qed.

Lemma save_success `{JsonLib} io (fs fs' : filesystem) team_id players_data :
  SaveTeamSnapshot_forward io fs team_id players_data = (true, fs') →
  io = IoSuccess
  ∧ fs' = <[snapshot_filename team_id :=
              json_dump (value_of_collection players_data)]> fs.
Proof.
  unfold SaveTeamSnapshot_forward. destruct io; [| done | done].
  by intros [= <-].
Qed.

(** Saving then loading gives the collection back as soon as [json.load]
    reads back the text [json.dump] wrote for it. *)
Lemma save_then_load_any_json `{JsonLib} io (fs fs' : filesystem) team_id players_data :
  json_load (json_dump (value_of_collection players_data))
  = Some (value_of_collection players_data) →
  SaveTeamSnapshot_forward io fs team_id players_data = (true, fs') →
  LoadTeamSnapshot_forward fs' team_id = Ok (Some players_data).
Proof.
  intros Hjson [_ ->]%save_success. unfold LoadTeamSnapshot_forward.
  rewrite lookup_insert_eq, Hjson.
  change (value_of_collection players_data) with (VList (map VDict players_data)).
  simpl. by rewrite records_of_values_dicts.
Qed.

Lemma reference_json_round_trips : json_round_trips (H:=PyJson.lib).
Proof. intros v Hv. by apply loads_dumps. Qed.

(** Two teams never share a file. *)
Lemma string_app_inv_tail (s1 s2 t : string) : s1 +:+ t = s2 +:+ t → s1 = s2.
Proof.
  revert s2. induction s1 as [| c s1 IH]; intros [| c' s2] Heq.
  - done.
  - apply (f_equal String.length) in Heq.
    rewrite !string_app_length in Heq. simpl in Heq. lia.
  - apply (f_equal String.length) in Heq.
    rewrite !string_app_length in Heq. simpl in Heq. lia.
  - change (String c (s1 +:+ t) = String c' (s2 +:+ t)) in Heq.
    injection Heq as -> Heq. by rewrite (IH s2 Heq).
Qed.

Lemma snapshot_filename_inj a b :
  snapshot_filename a = snapshot_filename b → a = b.
Proof.
  unfold snapshot_filename. intros Heq.
  do 3 apply String.app_inj in Heq.
  apply string_app_inv_tail in Heq. by apply pretty_Z_inj in Heq.
Qed.

(** A save, failed or not, leaves the snapshots of the other teams as they
    were. *)
Lemma save_other_team `{JsonLib} io (fs : filesystem) a b players_data :
  a ≠ b →
  LoadTeamSnapshot_forward (SaveTeamSnapshot_forward io fs a players_data).2 b
  = LoadTeamSnapshot_forward fs b.
Proof.
  intros Hab. unfold LoadTeamSnapshot_forward, SaveTeamSnapshot_forward.
  assert (snapshot_filename a ≠ snapshot_filename b) as Hfile
    by (intros Heq; by apply Hab, snapshot_filename_inj).
  destruct io; simpl; by rewrite ?lookup_insert_ne.
Qed.

(** C7. After a successful [SaveTeamSnapshot.forward] of a well-formed
    collection, nested sub-mappings included, [LoadTeamSnapshot.forward] of
    the same team returns that collection. This holds with any [json] module
    that reads back the well-formed values it writes, as the reference
    implementation does. *)
Theorem save_then_load `{JsonLib} io (fs fs' : filesystem) team_id players_data :
  json_round_trips →
  well_formed (value_of_collection players_data) = true →
  SaveTeamSnapshot_forward io fs team_id players_data = (true, fs') →
  LoadTeamSnapshot_forward fs' team_id = Ok (Some players_data).
Proof.
  intros Hjson Hwf. apply save_then_load_any_json. by apply Hjson.
Qed.

Lemma save_then_load_witness :
  LoadTeamSnapshot_forward (H:=PyJson.lib)
    (SaveTeamSnapshot_forward (H:=PyJson.lib) IoSuccess disk_before 7
       roster_skilled).2 7
  = Ok (Some roster_skilled).
Proof.
  apply (save_then_load (H:=PyJson.lib) IoSuccess disk_before _ 7 roster_skilled).
  - exact reference_json_round_trips.
  - vm_compute. reflexivity.
  - reflexivity.
Defined.

(** What a failed write leaves in the file is the beginning of the text. *)
Lemma text_prefix_is_prefix n text : String.prefix (text_prefix n text) text = true.
Proof.
  unfold text_prefix. revert n.
  induction text as [| c text IH]; intros [| n]; simpl; try done.
  by destruct (ascii_dec c c).
Qed.

(** C8, as the code has it. When the operating system fails a save,
    [SaveTeamSnapshot.forward] returns [False] and raises nothing. If the file
    could not be opened the store is untouched; if the write failed after the
    file was opened, the file of that team holds the beginning of the new text
    that was written, not the previous snapshot. The files of the other teams
    are untouched in both cases. *)
Theorem failed_save_effect `{JsonLib} io (fs : filesystem) team_id players_data :
  io ≠ IoSuccess →
  ∃ fs' : filesystem,
    SaveTeamSnapshot_forward io fs team_id players_data = (false, fs')
    ∧ (io = IoOpenFails → fs' = fs)
    ∧ (∀ written, io = IoWriteFails written →
         fs' !! snapshot_filename team_id
         = Some (text_prefix written
                   (json_dump (value_of_collection players_data))))
    ∧ (∀ path, path ≠ snapshot_filename team_id → fs' !! path = fs !! path).
Proof.
  intros Hio. unfold SaveTeamSnapshot_forward.
  destruct io as [| | written]; [done | |]; eexists; (split; [reflexivity |]).
  - by repeat split.
  - repeat split; [done | |].
    + intros ? [= <-]. by rewrite lookup_insert_eq.
    + intros path Hpath. by rewrite lookup_insert_ne.
Qed.

Lemma failed_save_effect_witness :
  ∃ fs' : filesystem,
    SaveTeamSnapshot_forward (H:=PyJson.lib) (IoWriteFails 1) disk_before 7
      roster_after = (false, fs')
    ∧ fs' !! snapshot_filename 7 = Some "[".
Proof.
  destruct (failed_save_effect (H:=PyJson.lib) (IoWriteFails 1) disk_before 7
              roster_after) as (fs' & Hsave & _ & Hfile & _).
  - discriminate.
  - exists fs'. split; [exact Hsave |]. apply (Hfile 1%nat). reflexivity.
Defined.

(** A write that fails after one character: the save returns [False], and
    the snapshot that was on disk is gone. *)
Lemma failed_save_loses_snapshot :
  let saved :=
    SaveTeamSnapshot_forward (H:=PyJson.lib) (IoWriteFails 1) disk_before 7
      roster_after in
  saved.1 = false
  ∧ saved.2 !! snapshot_filename 7 = Some "["
  ∧ saved.2 !! snapshot_filename 7 ≠ disk_before !! snapshot_filename 7
  ∧ LoadTeamSnapshot_forward (H:=PyJson.lib) disk_before 7 = Ok (Some roster_before)
  ∧ LoadTeamSnapshot_forward (H:=PyJson.lib) saved.2 7 = Raise JSONDecodeError.
Proof. repeat split; vm_compute; congruence. Qed.

(** ** ReportTeamChanges.forward *)

Lemma append_lines {A} (line : A → string) (l : list A) (lines : list string) :
  fold_left (λ lines x, lines ++ [line x]) l lines = lines ++ map line l.
Proof.
  revert lines. induction l as [| x l IH]; intros lines; simpl.
  - by rewrite app_nil_r.
  - by rewrite IH, <- app_assoc.
Qed.

Section report_facts.
Context `{PyRepr}.

Lemma append_names_lines names lines :
  append_names names lines = lines ++ map name_line names.
Proof. unfold append_names. apply append_lines. Qed.

Lemma append_attrs_lines attrs lines :
  append_attrs attrs lines = lines ++ map field_line attrs.
Proof. unfold append_attrs. apply (append_lines field_line). Qed.

Lemma append_players_lines attribute_changes lines :
  append_players attribute_changes lines
  = lines ++ List.concat (map player_section attribute_changes).
Proof.
  unfold append_players. revert lines.
  induction attribute_changes as [| [name attrs] rest IH]; intros lines; simpl.
  - by rewrite app_nil_r.
  - rewrite IH, append_attrs_lines. unfold player_section. simpl.
    by rewrite <- !app_assoc.
Qed.

(** C10. Without a change set the report is one fixed text. With a change
    set it is made, in this order, of the added names under their heading or
    the sentence that no player was added, of the removed names under their
    heading or the sentence that no player was removed, and of one section
    for each identity of [attribute_changes], giving every changed field
    with its old and new values, or the sentence that no attribute changed
    when that dictionary is empty. *)
Theorem report_in_three_sections :
  ReportTeamChanges_forward None
  = "No previous snapshot exists. Unable to report changes."
  ∧ ∀ cs,
      ReportTeamChanges_forward (Some cs)
      = String.concat LF
          (names_section "New players added:" "No new players added."
             (new_players cs)
           ++ names_section "Players removed:" "No players removed."
                (removed_players cs)
           ++ attributes_section (attribute_changes cs)).
Proof.
  split; [done |]. intros [added removed attrs]. simpl. f_equal.
  rewrite !append_names_lines. unfold names_section, attributes_section.
  destruct attrs as [| entry attrs].
  - destruct added, removed; simpl; by rewrite <- ?app_assoc.
  - rewrite append_players_lines.
    destruct added, removed; simpl; by rewrite <- ?app_assoc.
Qed.
End report_facts.

(** ** When the comparison returns *)

Lemma index_by_name_total c acc :
  Forall has_scalar_name c → ∃ view, index_by_name c acc = Ok view.
Proof.
  intros Hall. revert acc.
  induction Hall as [| p c [name Hname] _ IH]; intros acc; simpl; [eauto |].
  rewrite Hname. apply IH.
Qed.

Lemma last_with_identity_elem_of n c p :
  last_with_identity n c = Some p → p ∈ c.
Proof.
  unfold last_with_identity. intros [Hin _]%find_some.
  apply list_elem_of_In. by apply in_rev.
Qed.

Lemma diff_players_total old_p new_p :
  skills_optional old_p → skills_given new_p →
  ∃ diff, diff_players old_p new_p = Ok diff.
Proof.
  intros [Hold | [old_skills Hold]] [new_skills Hnew];
    unfold diff_players, check_skills; rewrite Hold; [eauto |].
  rewrite (check_skills_loop _ _ _ _ _ Hnew). eauto.
Qed.

Lemma compare_players_loop_total old_view new_view ks acc :
  (∀ k old_p new_p,
     pyget k old_view = Some old_p → pyget k new_view = Some new_p →
     ∃ diff, diff_players old_p new_p = Ok diff) →
  (∀ k, k ∈ ks → is_Some (pyget k new_view)) →
  ∃ attrs, foldM (compare_player old_view new_view) ks acc = Ok attrs.
Proof.
  intros Hdiff. revert acc.
  induction ks as [| k ks IH]; intros acc Hkeys; simpl; [eauto |].
  assert (∃ acc', compare_player old_view new_view acc k = Ok acc') as [acc' ->].
  { unfold compare_player.
    destruct (pyget k old_view) as [old_p |] eqn:Hold; [| eauto].
    destruct (Hkeys k) as [new_p Hnew]; [apply elem_of_cons; by left |].
    rewrite Hnew. destruct (Hdiff _ _ _ Hold Hnew) as [diff ->]. simpl. eauto. }
  simpl. apply IH. intros k' Hk'. apply Hkeys, elem_of_cons. by right.
Qed.

(** The comparison returns a change set on collections whose records have a
    hashable name, when the skills are a dictionary wherever they are given
    and every new record gives them. *)
Lemma compare_snapshots_total old_snapshot new_snapshot :
  Forall has_scalar_name (old_snapshot ++ new_snapshot) →
  Forall skills_optional old_snapshot →
  Forall skills_given new_snapshot →
  ∃ cs, compare_snapshots old_snapshot new_snapshot = Ok cs.
Proof.
  intros [Hold_names Hnew_names]%Forall_app Hold_skills Hnew_skills.
  unfold compare_snapshots.
  destruct (index_by_name_total old_snapshot [] Hold_names) as [old_view Hold].
  destruct (index_by_name_total new_snapshot [] Hnew_names) as [new_view Hnew].
  fold (players_by_name old_snapshot) in Hold.
  fold (players_by_name new_snapshot) in Hnew.
  rewrite Hold, Hnew. simpl.
  destruct (compare_players_loop_total old_view new_view (pykeys new_view) [])
    as [attrs ->]; [| | simpl; eauto].
  - intros k old_p new_p Hold_p Hnew_p. apply diff_players_total.
    + rewrite (players_by_name_lookup _ _ k Hold) in Hold_p.
      apply last_with_identity_elem_of in Hold_p.
      by apply (proj1 (Forall_forall _ _) Hold_skills).
    + rewrite (players_by_name_lookup _ _ k Hnew) in Hnew_p.
      apply last_with_identity_elem_of in Hnew_p.
      by apply (proj1 (Forall_forall _ _) Hnew_skills).
  - intros k Hk. destruct (pyget k new_view) as [new_p |] eqn:Hget; [eauto |].
    exfalso. assert (pymem k new_view = true) as Hmem.
    { rewrite pymem_keys. apply existsb_exists. exists k.
      split; [by apply list_elem_of_In | apply scalar_eqb_refl]. }
    unfold pymem in Hmem. by rewrite Hget in Hmem.
Qed.

(** ** The examples of the specification *)

Example compare_rosters :
  compare_snapshots roster_before roster_after = Ok changes_after.
Proof. reflexivity. Qed.

Example compare_with_empty :
  compare_snapshots [player "A" []] []
  = Ok (Changes [] [SStr "A"] []).
Proof. reflexivity. Qed.

Example compare_same :
  compare_snapshots roster_skilled roster_skilled = Ok (Changes [] [] []).
Proof. reflexivity. Qed.

(** [True] and [1] are the same dictionary key. *)
Example compare_bool_and_int_names :
  compare_snapshots [[("name", Atom (SInt 1))]] [[("name", Atom (SBool true))]]
  = Ok (Changes [] [] []).
Proof. reflexivity. Qed.

Example report_rosters :
  ReportTeamChanges_forward (H:=repr_plain) (Some changes_after)
  = String.concat LF
      ["New players added:"; " - B"; "No players removed.";
       "Changes in player attributes:"; " - A:";
       "     age: 20 " +:+ ARROW +:+ " 21"].
Proof. reflexivity. Qed.

Example report_skills :
  (diff ← diff_players skilled_before skilled_after;
   Ok (append_attrs (H:=repr_plain) diff []))
  = Ok ["     tackle: 5 " +:+ ARROW +:+ " 6";
        "     pass: 7 " +:+ ARROW +:+ " None"].
Proof. reflexivity. Qed.

(** A skills field that is not a dictionary. *)
Example compare_skills_none :
  diff_players (player "A" [("skills", PyNone)]) skilled_after = Raise TypeError.
Proof. reflexivity. Qed.

Example compare_skills_list :
  diff_players (player "A" [("skills", VList [Atom (SStr "tackle")])])
               skilled_after
  = Raise AttributeError.
Proof. reflexivity. Qed.

Example compare_new_skills_none :
  diff_players skilled_before (player "A" [("skills", PyNone)])
  = Raise AttributeError.
Proof. reflexivity. Qed.

(** A name that cannot be a dictionary key. *)
Example compare_unhashable_name :
  compare_snapshots [[("name", VList [])]] [] = Raise TypeError.
Proof. reflexivity. Qed.

Example report_no_baseline :
  ReportTeamChanges_forward (H:=repr_plain) None
  = "No previous snapshot exists. Unable to report changes.".
Proof. reflexivity. Qed.

Example report_no_change :
  ReportTeamChanges_forward (H:=repr_plain) (Some (Changes [] [] []))
  = String.concat LF
      ["No new players added."; "No players removed.";
       "No changes in player attributes detected."].
Proof. reflexivity. Qed.
